(** * The exchange-rate cooker (app/main.go), embedded and verified

    The Lambda handler walks the configured currency list; for every
    currency it looks the day's record up in DynamoDB, fetches the rates
    over HTTP when there is none, and stores them.  The embedding keeps
    the shape of the Go code: package-level configuration is a record,
    every call that leaves the process (GetItem, PutItem, http.Get,
    time.Now) is answered by an environment and, for the first three,
    appended to a call log, and Go's [(value, error)] results are a sum
    type.  Logging has no influence on control flow and is left out. *)

From Stdlib Require Import ZArith Lia Ascii String DecimalString.
From Stdlib Require Floats.SpecFloat DecimalN.
From stdpp Require Import gmap strings list fin_maps.

Local Open Scope Z_scope.

(** ** Go strings: byte length and the rune iteration of [range] *)

Module GoString.

(** [len(s)]: the number of bytes. *)
Definition len (s : string) : Z := Z.of_nat (String.length s).

Definition byteOf (a : ascii) : Z := Z.of_N (N_of_ascii a).

Definition bytes (s : string) : list Z :=
  List.map byteOf (list_ascii_of_string s).

(** utf8.RuneError, U+FFFD. *)
Definition RuneError : Z := 0xFFFD.

Definition inRange (lo hi b : Z) : bool := (lo <=? b) && (b <=? hi).

(** Continuation bytes are 0x80..0xBF. *)
Definition isCont (b : Z) : bool := inRange 0x80 0xBF b.

(** utf8.DecodeRuneInString: the first rune of [p] and its width in
    bytes; an invalid or truncated encoding yields [(RuneError, 1)]. *)
Definition DecodeRune (p : list Z) : Z * nat :=
  match p with
  | [] => (RuneError, 0%nat)
  | b0 :: rest =>
    if b0 <? 0x80 then (b0, 1%nat)
    else if b0 <? 0xC2 then (RuneError, 1%nat)
    else if b0 <? 0xE0 then
      match rest with
      | b1 :: _ =>
        if isCont b1
        then (Z.lor (Z.shiftl (Z.land b0 0x1F) 6) (Z.land b1 0x3F), 2%nat)
        else (RuneError, 1%nat)
      | [] => (RuneError, 1%nat)
      end
    else if b0 <? 0xF0 then
      match rest with
      | b1 :: b2 :: _ =>
        let lo := if b0 =? 0xE0 then 0xA0 else 0x80 in
        let hi := if b0 =? 0xED then 0x9F else 0xBF in
        if inRange lo hi b1 && isCont b2
        then (Z.lor (Z.shiftl (Z.land b0 0x0F) 12)
                (Z.lor (Z.shiftl (Z.land b1 0x3F) 6) (Z.land b2 0x3F)),
              3%nat)
        else (RuneError, 1%nat)
      | _ => (RuneError, 1%nat)
      end
    else if b0 <? 0xF5 then
      match rest with
      | b1 :: b2 :: b3 :: _ =>
        let lo := if b0 =? 0xF0 then 0x90 else 0x80 in
        let hi := if b0 =? 0xF4 then 0x8F else 0xBF in
        if inRange lo hi b1 && isCont b2 && isCont b3
        then (Z.lor (Z.shiftl (Z.land b0 0x07) 18)
                (Z.lor (Z.shiftl (Z.land b1 0x3F) 12)
                   (Z.lor (Z.shiftl (Z.land b2 0x3F) 6) (Z.land b3 0x3F))),
              4%nat)
        else (RuneError, 1%nat)
      | _ => (RuneError, 1%nat)
      end
    else (RuneError, 1%nat)
  end.

(** [for _, r := range s]: decode a rune at the current byte, then move
    on by its width.  [skip] counts the bytes that still belong to the
    rune decoded last. *)
Fixpoint rangeFrom (skip : nat) (p : list Z) : list Z :=
  match p with
  | [] => []
  | _ :: rest =>
    match skip with
    | S k => rangeFrom k rest
    | O => let '(r, w) := DecodeRune p in r :: rangeFrom (Nat.pred w) rest
    end
  end.

Definition runes (s : string) : list Z := rangeFrom 0 (bytes s).

End GoString.

(** ** Data model *)

(** A float64 is carried around, never computed with: its IEEE 754 value
    is all the model needs. *)
Definition float64 : Type := SpecFloat.spec_float.

(** time.Time as the instant it denotes: seconds since January 1 of
    year 1, 00:00:00 UTC, and nanoseconds within the second.  The zero
    value of the Go type is that instant itself. *)
Record Time := { sec : Z; nsec : Z }.

Definition zeroTime : Time := {| sec := 0; nsec := 0 |}.

(** The seconds from January 1 of year 1 to the Unix epoch
    (time.unixToInternal). *)
Definition unixToInternal : Z :=
  (1969 * 365 + 1969 / 4 - 1969 / 100 + 1969 / 400) * 86400.

(** Time.IsZero *)
Definition IsZero (t : Time) : bool := (sec t =? 0) && (nsec t =? 0).

Record ExchangeRateResponse := {
  Result : string;
  BaseCode : string;
  ConversionRates : gmap string float64
}.

Record ExchangeRateRecord := {
  Key : string;
  SortKey : string;
  ExchangeRates : gmap string float64;
  UpdatedAt : Time
}.

Record SupportedCurrenciesRecord := {
  scKey : string;
  scSortKey : string;
  SupportedCurrencies : list string;
  scUpdatedAt : Time
}.

(** The errors the program builds with fmt.Errorf, one constructor per
    call site; wrapped causes are not inspected anywhere and are left
    out. *)
Inductive error :=
| ErrBaseCurrencyLength
| ErrBaseCurrencyUppercase
| ErrFetchFailed
| ErrApiStatus (status : Z)
| ErrDecodeResponse
| ErrApiResult (result : string)
| ErrMarshalKey (baseCurrency : string)
| ErrCheckExisting (baseCurrency date : string)
| ErrUnmarshalExisting (baseCurrency : string)
| ErrMarshalRecord (baseCurrency : string)
| ErrStoreRates (baseCurrency : string)
| ErrMarshalSupported
| ErrStoreSupported
| ErrAllFailed (errorCount : Z).

(** Go's [(value, error)] pair with exactly one side set. *)
Inductive result (A : Type) :=
| Ok (a : A)
| Err (e : error).
Arguments Ok {A} a.
Arguments Err {A} e.

(** ** The DynamoDB table and the outside world *)

(** An item of the table, by what it decodes to.  The program writes
    exchange-rate records and the supported-currencies record; anything
    else the table may hold is a [ForeignItem], of which only the primary
    key matters. *)
Inductive Item :=
| RatesItem (r : ExchangeRateRecord)
| CurrenciesItem (r : SupportedCurrenciesRecord)
| ForeignItem (key sortKey : string).

(** The primary key (partition key "Key", sort key "SortKey"). *)
Definition itemKey (it : Item) : string * string :=
  match it with
  | RatesItem r => (Key r, SortKey r)
  | CurrenciesItem r => (scKey r, scSortKey r)
  | ForeignItem k sk => (k, sk)
  end.

(** attributevalue.MarshalMap on the three values the program encodes.
    [None] stands for the encoder's error; none of the three shapes
    makes it fail. *)
Definition MarshalKey (key sortKey : string) : option (string * string) :=
  Some (key, sortKey).

Definition MarshalRates (r : ExchangeRateRecord) : option Item :=
  Some (RatesItem r).

Definition MarshalSupported (r : SupportedCurrenciesRecord) : option Item :=
  Some (CurrenciesItem r).

(** attributevalue.UnmarshalMap into an ExchangeRateRecord: attributes are
    matched by name, unknown ones are ignored and missing ones keep the
    zero value, so the supported-currencies item decodes with a nil rate
    map.  [None] is the decoder's error. *)
Definition UnmarshalRates (it : Item) : option ExchangeRateRecord :=
  match it with
  | RatesItem r => Some r
  | CurrenciesItem r =>
    Some {| Key := scKey r; SortKey := scSortKey r;
            ExchangeRates := ∅; UpdatedAt := scUpdatedAt r |}
  | ForeignItem _ _ => None
  end.

(** What json.NewDecoder(resp.Body).Decode makes of a response body. *)
Inductive Body :=
| Undecodable
| Decodes (r : ExchangeRateResponse).

(** The outcome of http.Get. *)
Inductive HttpResult :=
| TransportError
| Response (StatusCode : Z) (body : Body).

(** The calls that leave the process, as logged. *)
Inductive Call :=
| GetItem (TableName : string) (key : string * string)
| PutItem (TableName : string) (item : Item)
| HttpGet (url : string).

(** A calendar date, as time.Now() reports it. *)
Record Date := { year : Z; month : Z; day : Z }.

(** The environment answers every outside call.  Calls are numbered in the
    order they are made (the number of a call is the length of the log
    before it), and an answer may depend on that number and on the
    request, so every pattern of failures is some environment.  [today]
    is the calendar date of the time.Now() at the head of [handler];
    [clock] is the system's wall clock, which counts seconds and
    nanoseconds from the Unix epoch upwards. *)
Record Env := {
  today : Date;
  clock : nat -> N * N;
  getItemFails : nat -> string * string -> bool;
  putItemFails : nat -> Item -> bool;
  httpResponse : nat -> string -> HttpResult
}.

(** Package-level variables set by [init]. *)
Record Config := {
  tableName : string;
  apiKey : string;
  supportedCurrencies : list string
}.

(** The table's content and the log of calls made so far. *)
Record World := {
  table : gmap (string * string) Item;
  calls : list Call
}.

(** Stateful code: a function of the world. *)
Definition M (A : Type) : Type := World -> A * World.

Definition ret {A} (a : A) : M A := fun w => (a, w).

Definition bind {A B} (m : M A) (k : A -> M B) : M B :=
  fun w => let '(a, w') := m w in k a w'.

Notation "'do' x <- m ; k" := (bind m (fun x => k))
  (at level 10, x name, m at level 100, k at level 200).

Definition logCall (c : Call) : M unit :=
  fun w => (tt, {| table := table w; calls := calls w ++ [c] |}).

(** The number the next outside call will get. *)
Definition ordinal (w : World) : nat := length (calls w).

(** ** Formatting the date *)

(** time.appendInt: decimal digits, zero-padded to [width], with a
    leading minus sign for negative numbers. *)
Definition appendInt (x : Z) (width : nat) : string :=
  let digits := NilZero.string_of_uint (N.to_uint (Z.abs_N x)) in
  let padded :=
    string_of_list_ascii
      (replicate (width - String.length digits)%nat "0"%char) +:+ digits in
  if x <? 0 then String "-" padded else padded.

(** Time.Format("2006-01-02") *)
Definition formatDate (d : Date) : string :=
  appendInt (year d) 4 +:+ "-" +:+ appendInt (month d) 2 +:+ "-"
    +:+ appendInt (day d) 2.

(** ** Configuration (init) *)

(** strings.Split with a one-byte separator, the only way it is called. *)
Fixpoint Split (s : string) (sep : ascii) : list string :=
  match s with
  | EmptyString => [EmptyString]
  | String c rest =>
    if Ascii.eqb c sep then EmptyString :: Split rest sep
    else match Split rest sep with
         | seg :: segs => String c seg :: segs
         | [] => [String c EmptyString]
         end
  end.

Definition defaultCurrencies : list string :=
  ["EUR"; "GBP"; "CHF"; "SEK"; "NOK"; "DKK"; "PLN"; "CZK"; "HUF"; "RON";
   "UAH"; "BYN"; "RUB"].

(** The currency list [init] derives from SUPPORTED_CURRENCIES. *)
Definition parseSupportedCurrencies (supportedCurrenciesStr : string)
  : list string :=
  if bool_decide (supportedCurrenciesStr ≠ EmptyString)
  then Split supportedCurrenciesStr "|"
  else defaultCurrencies.

(** [init]: [getenv] is os.Getenv (unset variables read as the empty
    string), [sdkConfigErr] tells whether config.LoadDefaultConfig
    failed.  [None] is the process exit of logrus.Fatal. *)
Definition init (getenv : string -> string) (sdkConfigErr : bool)
  : option Config :=
  if sdkConfigErr then None
  else
    let tableName := getenv "EXCHANGE_RATE_DB_NAME" in
    let apiKey := getenv "EXCHANGE_RATE_API_KEY" in
    let supportedCurrencies :=
      parseSupportedCurrencies (getenv "SUPPORTED_CURRENCIES") in
    if bool_decide (tableName = EmptyString) then None
    else Some {| tableName := tableName; apiKey := apiKey;
                 supportedCurrencies := supportedCurrencies |}.

(** ** The program *)

(** The three outcome counters of [handler].  They are Go ints that
    start at zero and are incremented at most once per element of a
    slice, whose length is itself an int: no increment can overflow, and
    the counters are the integers they count. *)
Record Counters := {
  successCount : Z;
  errorCount : Z;
  skippedCount : Z
}.

Section Program.

Context (env : Env) (cfg : Config).

(** dynamoClient.GetItem: [None] is the client's error, [Some o] the
    item found under the key, if any. *)
Definition dynamoGetItem (key : string * string) : M (option (option Item)) :=
  fun w =>
    let n := ordinal w in
    let '(_, w') := logCall (GetItem (tableName cfg) key) w in
    if getItemFails env n key then (None, w')
    else (Some (table w !! key), w').

(** dynamoClient.PutItem: [true] is the client's error; otherwise the
    item replaces whatever the table held under its key. *)
Definition dynamoPutItem (item : Item) : M bool :=
  fun w =>
    let n := ordinal w in
    let '(_, w') := logCall (PutItem (tableName cfg) item) w in
    if putItemFails env n item then (true, w')
    else (false, {| table := <[itemKey item := item]> (table w');
                    calls := calls w' |}).

(** http.Get *)
Definition httpGet (url : string) : M HttpResult :=
  fun w =>
    let n := ordinal w in
    let '(_, w') := logCall (HttpGet url) w in
    (httpResponse env n url, w').

(** time.Now(), read when the next outside call is about to be made:
    the wall clock moved to Go's epoch. *)
Definition timeNow : M Time :=
  fun w =>
    let '(s, ns) := clock env (ordinal w) in
    ({| sec := unixToInternal + Z.of_N s; nsec := Z.of_N ns |}, w).

(** The address [fetchExchangeRates] requests. *)
Definition rateUrl (baseCurrency : string) : string :=
  if bool_decide (apiKey cfg ≠ EmptyString)
  then "https://v6.exchangerate-api.com/v6/" +:+ apiKey cfg +:+ "/latest/"
         +:+ baseCurrency
  else "https://api.exchangerate-api.com/v4/latest/" +:+ baseCurrency.

Definition fetchExchangeRates (baseCurrency : string)
  : M (result ExchangeRateResponse) :=
  if negb (GoString.len baseCurrency =? 3) then
    ret (Err ErrBaseCurrencyLength)
  else if existsb (fun r => (r <? 65) || (r >? 90))
                  (GoString.runes baseCurrency) then
    ret (Err ErrBaseCurrencyUppercase)
  else
    let url := rateUrl baseCurrency in
    do resp <- httpGet url;
    match resp with
    | TransportError => ret (Err ErrFetchFailed)
    | Response StatusCode body =>
      if negb (StatusCode =? 200) then ret (Err (ErrApiStatus StatusCode))
      else
        match body with
        | Undecodable => ret (Err ErrDecodeResponse)
        | Decodes exchangeRates =>
          if bool_decide (Result exchangeRates ≠ EmptyString)
             && bool_decide (Result exchangeRates ≠ "success")
          then ret (Err (ErrApiResult (Result exchangeRates)))
          else ret (Ok exchangeRates)
        end
    end.

Definition checkExistingExchangeRates (baseCurrency date : string)
  : M (result (option ExchangeRateRecord)) :=
  match MarshalKey baseCurrency date with
  | None => ret (Err (ErrMarshalKey baseCurrency))
  | Some keyItem =>
    do found <- dynamoGetItem keyItem;
    match found with
    | None => ret (Err (ErrCheckExisting baseCurrency date))
    | Some None => ret (Ok None)
    | Some (Some item) =>
      match UnmarshalRates item with
      | None => ret (Err (ErrUnmarshalExisting baseCurrency))
      | Some record => ret (Ok (Some record))
      end
    end
  end.

Definition storeExchangeRates (baseCurrency date : string)
    (rates : ExchangeRateResponse) : M (option error) :=
  do now <- timeNow;
  let record := {| Key := baseCurrency; SortKey := date;
                   ExchangeRates := ConversionRates rates;
                   UpdatedAt := now |} in
  match MarshalRates record with
  | None => ret (Some (ErrMarshalRecord baseCurrency))
  | Some item =>
    do failed <- dynamoPutItem item;
    if failed then ret (Some (ErrStoreRates baseCurrency)) else ret None
  end.

Definition storeSupportedCurrencies : M (option error) :=
  do now <- timeNow;
  let record := {| scKey := "SupportedCurrencies"; scSortKey := "-";
                   SupportedCurrencies := supportedCurrencies cfg;
                   scUpdatedAt := now |} in
  match MarshalSupported record with
  | None => ret (Some ErrMarshalSupported)
  | Some item =>
    do failed <- dynamoPutItem item;
    if failed then ret (Some ErrStoreSupported) else ret None
  end.

Definition incSuccess (c : Counters) : Counters :=
  {| successCount := successCount c + 1; errorCount := errorCount c;
     skippedCount := skippedCount c |}.

Definition incError (c : Counters) : Counters :=
  {| successCount := successCount c; errorCount := errorCount c + 1;
     skippedCount := skippedCount c |}.

Definition incSkipped (c : Counters) : Counters :=
  {| successCount := successCount c; errorCount := errorCount c;
     skippedCount := skippedCount c + 1 |}.

(** One iteration of the loop of [handler]; every [continue] is a
    return from the iteration. *)
Definition processCurrency (currentDate baseCurrency : string)
    (c : Counters) : M Counters :=
  do existing <- checkExistingExchangeRates baseCurrency currentDate;
  match existing with
  | Err _ => ret (incError c)
  | Ok (Some existingRecord) => ret (incSkipped c)
  | Ok None =>
    do fetched <- fetchExchangeRates baseCurrency;
    match fetched with
    | Err _ => ret (incError c)
    | Ok rates =>
      do err <- storeExchangeRates baseCurrency currentDate rates;
      match err with
      | Some _ => ret (incError c)
      | None => ret (incSuccess c)
      end
    end
  end.

(** [for i, baseCurrency := range supportedCurrencies] *)
Fixpoint processAll (currentDate : string) (currencies : list string)
    (c : Counters) : M Counters :=
  match currencies with
  | [] => ret c
  | baseCurrency :: rest =>
    do c' <- processCurrency currentDate baseCurrency c;
    processAll currentDate rest c'
  end.

Definition zeroCounters : Counters :=
  {| successCount := 0; errorCount := 0; skippedCount := 0 |}.

(** The end of [handler]: the run failed only if nothing but errors
    happened. *)
Definition classify (c : Counters) : option error :=
  if (errorCount c >? 0) && (successCount c =? 0) && (skippedCount c =? 0)
  then Some (ErrAllFailed (errorCount c))
  else None.

(** [handler] up to the end of the loop: the counters the final log
    line reports. *)
Definition handlerCounts : M Counters :=
  let currentDate := formatDate (today env) in
  do _ <- storeSupportedCurrencies;
  processAll currentDate (supportedCurrencies cfg) zeroCounters.

Definition handler : M (option error) :=
  do c <- handlerCounts;
  ret (classify c).

End Program.

(** ** Currency codes, in the words of the specification *)

(** An uppercase ASCII letter. *)
Definition isUppercaseLetter (a : ascii) : bool :=
  Ascii.leb "A" a && Ascii.leb a "Z".

(** Exactly three characters, every one an uppercase ASCII letter. *)
Definition validCurrencyCode (s : string) : bool :=
  match s with
  | String a (String b (String c EmptyString)) =>
    isUppercaseLetter a && isUppercaseLetter b && isUppercaseLetter c
  | _ => false
  end.

(** The two errors of the validation at the head of
    [fetchExchangeRates]. *)
Definition isValidationError (e : error) : bool :=
  match e with
  | ErrBaseCurrencyLength | ErrBaseCurrencyUppercase => true
  | _ => false
  end.

(** ** Vocabulary of the statements *)

(** The test inside the loop of [fetchExchangeRates]. *)
Abbreviation notUpper := (fun r : Z => (r <? 65) || (r >? 90)).

(** The world after one more logged call. *)
Definition logged (c : Call) (w : World) : World :=
  {| table := table w; calls := calls w ++ [c] |}.

(** The record [storeExchangeRates] builds in world [w]. *)
Definition stamped (env : Env) (baseCurrency date : string)
    (rates : ExchangeRateResponse) (w : World) : ExchangeRateRecord :=
  {| Key := baseCurrency; SortKey := date;
     ExchangeRates := ConversionRates rates;
     UpdatedAt := fst (timeNow env w) |}.

(** How one iteration of the loop ended. *)
Inductive Outcome := Succeeded | Errored | Skipped.

#[global] Instance Outcome_eq_dec : EqDecision Outcome.
Proof. solve_decision. Defined.

(** The counter an outcome stands for, incremented. *)
Definition bump (o : Outcome) (c : Counters) : Counters :=
  match o with
  | Succeeded => incSuccess c
  | Errored => incError c
  | Skipped => incSkipped c
  end.

(** The outcome of the iteration for [baseCurrency] started in [w], read
    off the results of the three calls: an error from the lookup, the
    fetch or the write is [Errored], a record found is [Skipped]. *)
Definition stepOutcome (env : Env) (cfg : Config)
    (currentDate baseCurrency : string) (w : World) : Outcome :=
  match checkExistingExchangeRates env cfg baseCurrency currentDate w with
  | (Err _, _) => Errored
  | (Ok (Some _), _) => Skipped
  | (Ok None, w1) =>
    match fetchExchangeRates env cfg baseCurrency w1 with
    | (Err _, _) => Errored
    | (Ok rates, w2) =>
      match storeExchangeRates env cfg baseCurrency currentDate rates w2 with
      | (Some _, _) => Errored
      | (None, _) => Succeeded
      end
    end
  end.

(** The outcomes of the iterations over [currencies], in order, each
    started in the world its predecessor left. *)
Fixpoint outcomes (env : Env) (cfg : Config) (currentDate : string)
    (currencies : list string) (w : World) : list Outcome :=
  match currencies with
  | [] => []
  | baseCurrency :: rest =>
    stepOutcome env cfg currentDate baseCurrency w
      :: outcomes env cfg currentDate rest
           (snd (processCurrency env cfg currentDate baseCurrency
                   zeroCounters w))
  end.

Definition countOf (o : Outcome) (l : list Outcome) : Z :=
  Z.of_nat (length (filter (λ x, x = o) l)).

(** The keys looked up with GetItem, in call order. *)
Definition lookupKeys (l : list Call) : list (string * string) :=
  omap (λ c, match c with GetItem _ key => Some key | _ => None end) l.

(** The key of the supported-currencies record. *)
Definition singletonKey : string * string := ("SupportedCurrencies", "-").

(** Two environments that answer alike, except possibly when the PutItem
    numbered [n] is asked whether it fails. *)
Definition agreeExceptPut (n : nat) (e1 e2 : Env) : Prop :=
  today e1 = today e2
  ∧ (∀ k, clock e1 k = clock e2 k)
  ∧ (∀ k key, getItemFails e1 k key = getItemFails e2 k key)
  ∧ (∀ k url, httpResponse e1 k url = httpResponse e2 k url)
  ∧ (∀ k item, k ≠ n → putItemFails e1 k item = putItemFails e2 k item).

(** Two worlds with the same call log, past call [n], and the same table
    content under every key but the supported-currencies one. *)
Definition sameOffSingleton (n : nat) (w1 w2 : World) : Prop :=
  calls w1 = calls w2
  ∧ (n < ordinal w1)%nat
  ∧ ∀ key, key ≠ singletonKey → table w1 !! key = table w2 !! key.

(** Two computations that, from such worlds, give the same result and
    lead to such worlds again. *)
Definition alike {A} (n : nat) (m1 m2 : M A) : Prop :=
  ∀ w1 w2, sameOffSingleton n w1 w2 →
    fst (m1 w1) = fst (m2 w2) ∧ sameOffSingleton n (snd (m1 w1)) (snd (m2 w2)).

(** ** Splitting, in the words of the specification *)

(** strings.Join with a one-byte separator. *)
Fixpoint Join (sep : ascii) (l : list string) : string :=
  match l with
  | [] => EmptyString
  | [seg] => seg
  | seg :: rest => seg +:+ String sep (Join sep rest)
  end.

Fixpoint contains (sep : ascii) (s : string) : bool :=
  match s with
  | EmptyString => false
  | String c rest => Ascii.eqb c sep || contains sep rest
  end.

(** [l] is [s] cut at every separator: the segments, in order and with
    the separator between neighbours, spell [s], and no segment holds a
    separator. *)
Definition IsSplitOf (sep : ascii) (s : string) (l : list string) : Prop :=
  l ≠ [] ∧ Forall (λ seg, contains sep seg = false) l ∧ Join sep l = s.

(** ** Worked inputs *)

(** The float64 nearest to 1.1, and 160. *)
Definition rate_1_1 : float64 :=
  SpecFloat.S754_finite false 4953959590107546 (-52).

Definition rate_160 : float64 :=
  SpecFloat.S754_finite false 5629499534213120 (-45).

(** The decoded body
    {"result":"success","conversion_rates":{"USD":1.1,"JPY":160.0}}. *)
Definition eurResponse : ExchangeRateResponse :=
  {| Result := "success"; BaseCode := EmptyString;
     ConversionRates := {[ "USD" := rate_1_1; "JPY" := rate_160 ]} |}.

(** A table and a log with nothing in them. *)
Definition emptyWorld : World := {| table := ∅; calls := [] |}.

(** The scenario's environment: the store answers every call, the
    provider answers the request for EUR with [eurResponse] and every
    other request with a network error. *)
Definition scenarioEnv (cfg : Config) (d : Date) (clk : nat → N * N) : Env :=
  {| today := d;
     clock := clk;
     getItemFails := λ _ _, false;
     putItemFails := λ _ _, false;
     httpResponse := λ _ url,
       if bool_decide (url = rateUrl cfg "EUR")
       then Response 200 (Decodes eurResponse)
       else TransportError |}.

Definition scenarioConfig (tbl key : string) : Config :=
  {| tableName := tbl; apiKey := key; supportedCurrencies := ["EUR"; "GBP"] |}.

(** March 7, 2026, and a clock that ticks once per call from the midnight
    of that day. *)
Definition aDate : Date := {| year := 2026; month := 3; day := 7 |}.

Definition aClock (k : nat) : N * N := ((1772841600 + N.of_nat k)%N, 0%N).

(** An environment in which GetItem always fails and nothing else does,
    with a provider that always answers [eurResponse]. *)
Definition lookupFaultEnv : Env :=
  {| today := aDate; clock := aClock;
     getItemFails := λ _ _, true;
     putItemFails := λ _ _, false;
     httpResponse := λ _ _, Response 200 (Decodes eurResponse) |}.

(** An environment without failures whose provider answers status 200 and
    a body with "result":"error". *)
Definition errorResultResponse : ExchangeRateResponse :=
  {| Result := "error"; BaseCode := EmptyString; ConversionRates := ∅ |}.

Definition errorResultEnv : Env :=
  {| today := aDate; clock := aClock;
     getItemFails := λ _ _, false;
     putItemFails := λ _ _, false;
     httpResponse := λ _ _, Response 200 (Decodes errorResultResponse) |}.

(** No API key: the public endpoint. *)
Definition publicConfig : Config :=
  {| tableName := "rates"; apiKey := EmptyString;
     supportedCurrencies := ["EUR"] |}.

(** The record for EUR on [aDate] and a world whose table holds it. *)
Definition eurRecord : ExchangeRateRecord :=
  {| Key := "EUR"; SortKey := formatDate aDate;
     ExchangeRates := ConversionRates eurResponse;
     UpdatedAt := {| sec := unixToInternal + 1772841600; nsec := 0 |} |}.

Definition eurHeldWorld : World :=
  {| table := {[ ("EUR", formatDate aDate) := RatesItem eurRecord ]};
     calls := [] |}.

(** An environment in which the first outside call, the write of the
    supported-currencies record, fails and no other call does. *)
Definition firstPutFaultEnv : Env :=
  {| today := aDate; clock := aClock;
     getItemFails := λ _ _, false;
     putItemFails := λ k _, Nat.eqb k 0;
     httpResponse := λ _ _, Response 200 (Decodes eurResponse) |}.

(** The same environment without the failure. *)
Definition noFaultEnv : Env :=
  {| today := aDate; clock := aClock;
     getItemFails := λ _ _, false;
     putItemFails := λ _ _, false;
     httpResponse := λ _ _, Response 200 (Decodes eurResponse) |}.

(** ** Further vocabulary *)

(** The addresses requested with http.Get, in call order. *)
Definition httpUrls (l : list Call) : list string :=
  omap (λ c, match c with HttpGet url => Some url | _ => None end) l.

(** The items handed to PutItem, in call order. *)
Definition putItems (l : list Call) : list Item :=
  omap (λ c, match c with PutItem _ item => Some item | _ => None end) l.

(** How often the separator occurs in a string. *)
Fixpoint countSep (sep : ascii) (s : string) : nat :=
  match s with
  | EmptyString => 0%nat
  | String c rest =>
    ((if Ascii.eqb c sep then 1 else 0) + countSep sep rest)%nat
  end.

(** The currency list of the deployment (deploy/main.tf), which the
    Terraform module joins with "|" into SUPPORTED_CURRENCIES. *)
Definition deployedCurrencies : list string :=
  ["USD"; "JPY"; "CAD"; "AUD"; "CNY"; "EUR"; "GBP"; "CHF"; "SEK"; "NOK";
   "DKK"; "PLN"; "CZK"; "HUF"; "RON"; "UAH"; "BYN"; "RUB"].

(** The process environment the Terraform module sets up for a table name,
    an API key and a currency list. *)
Definition deployedGetenv (tbl key : string) (currencies : list string)
    (name : string) : string :=
  if bool_decide (name = "EXCHANGE_RATE_DB_NAME") then tbl
  else if bool_decide (name = "EXCHANGE_RATE_API_KEY") then key
  else if bool_decide (name = "SUPPORTED_CURRENCIES") then Join "|" currencies
  else EmptyString.



(** An environment in which no store call fails and the provider answers
    every request with status 200 and a body that decodes and does not
    report a failure. *)
Definition faultFree (env : Env) : Prop :=
  (∀ k key, getItemFails env k key = false)
  ∧ (∀ k item, putItemFails env k item = false)
  ∧ (∀ k url, ∃ r, httpResponse env k url = Response 200 (Decodes r)
                   ∧ (Result r = EmptyString ∨ Result r = "success")).

(** A table all of whose items decode as exchange-rate records. *)
Definition allDecode (t : gmap (string * string) Item) : Prop :=
  ∀ key item, t !! key = Some item → UnmarshalRates item ≠ None.

(** * Proofs *)

(** ** The model at work *)

Example runes_of_a_code : GoString.runes "EUR" = [69; 85; 82].
Proof. reflexivity. Qed.

(** One rune of three bytes, U+20AC. *)
Example runes_of_euro_sign :
  GoString.len "€" = 3 ∧ GoString.runes "€" = [0x20AC].
Proof. split; reflexivity. Qed.

Example formatDate_pads : formatDate aDate = "2026-03-07".
Proof. reflexivity. Qed.

Example Split_keeps_empty_segments :
  Split "EUR|GBP||X|" "|" = ["EUR"; "GBP"; EmptyString; "X"; EmptyString].
Proof. reflexivity. Qed.

Example rate_160_is_a_double :
  SpecFloat.valid_binary 53 1024 rate_160 = true
  ∧ SpecFloat.valid_binary 53 1024 rate_1_1 = true.
Proof. split; reflexivity. Qed.

(** The three bytes of the euro sign pass the length test and fall to the
    rune loop; four letters fall to the length test. *)
Example fetch_rejects_euro_sign :
  fetchExchangeRates noFaultEnv publicConfig "€" emptyWorld
  = (Err ErrBaseCurrencyUppercase, emptyWorld).
Proof. reflexivity. Qed.

Example fetch_rejects_four_letters :
  fetchExchangeRates noFaultEnv publicConfig "EURO" emptyWorld
  = (Err ErrBaseCurrencyLength, emptyWorld).
Proof. reflexivity. Qed.

(** One currency whose record is in the table: no request, one skip,
    success. *)
Example handler_skips_held_currency :
  fst (handlerCounts noFaultEnv publicConfig eurHeldWorld)
  = {| successCount := 0; errorCount := 0; skippedCount := 1 |}
  ∧ fst (handler noFaultEnv publicConfig eurHeldWorld) = None
  ∧ lookupKeys (calls (snd (handler noFaultEnv publicConfig eurHeldWorld)))
    = [("EUR", "2026-03-07")]
  ∧ Forall (λ c, ∀ url, c ≠ HttpGet url)
      (calls (snd (handler noFaultEnv publicConfig eurHeldWorld))).
Proof.
  repeat split; try reflexivity.
  vm_compute. repeat constructor; discriminate.
Qed.

(** One currency and a provider out of reach: one error, nothing else,
    failure. *)
Example handler_fails_when_provider_is_unreachable :
  fst (handlerCounts (scenarioEnv (scenarioConfig "rates" EmptyString) aDate aClock)
         {| tableName := "rates"; apiKey := EmptyString;
            supportedCurrencies := ["GBP"] |} emptyWorld)
  = {| successCount := 0; errorCount := 1; skippedCount := 0 |}
  ∧ fst (handler (scenarioEnv (scenarioConfig "rates" EmptyString) aDate aClock)
           {| tableName := "rates"; apiKey := EmptyString;
              supportedCurrencies := ["GBP"] |} emptyWorld)
    = Some (ErrAllFailed 1).
Proof. split; reflexivity. Qed.

(** ** Runes and bytes *)

Module GoStringFacts.
Import GoString.

Lemma lor_lower_r x y : 0 <= x -> y <= Z.lor x y.
Proof.
  intros Hx.
  pose proof (Zbitwise.Z.sub_lor_l_same_r x y) as E.
  assert (0 <= Z.land x (Z.lnot y)) by (apply Z.land_nonneg; now left).
  lia.
Qed.

Lemma lor_lower_l x y : 0 <= y -> x <= Z.lor x y.
Proof. intros Hy. rewrite Z.lor_comm. now apply lor_lower_r. Qed.

Lemma land_mask_nonneg b m : 0 <= m -> 0 <= Z.land b m.
Proof. intros Hm. apply Z.land_nonneg. now right. Qed.

Lemma shiftl_mask_nonneg b m k : 0 <= m -> 0 <= Z.shiftl (Z.land b m) k.
Proof. intros Hm. apply Z.shiftl_nonneg. now apply land_mask_nonneg. Qed.

(** The low [n] bits of a byte, as a remainder. *)
Lemma land_low b n : 0 <= n -> Z.land b (Z.ones n) = b mod 2 ^ n.
Proof. intros Hn. now apply Z.land_ones. Qed.

Lemma byteOf_range a : 0 <= byteOf a < 256.
Proof.
  unfold byteOf. pose proof (N_ascii_bounded a) as H. lia.
Qed.

(** A byte below 0x80 is its own rune. *)
Lemma DecodeRune_ascii b0 rest :
  b0 < 0x80 -> DecodeRune (b0 :: rest) = (b0, 1%nat).
Proof.
  intros H. unfold DecodeRune.
  destruct (Z.ltb_spec b0 0x80); [reflexivity | lia].
Qed.

(** Whatever else a sequence starting at 0x80 or above decodes to, it is
    not an ASCII rune. *)
Lemma DecodeRune_high b0 rest :
  0x80 <= b0 -> 0x80 <= fst (DecodeRune (b0 :: rest)).
Proof.
  intros H. unfold DecodeRune, RuneError, isCont, inRange.
  destruct (Z.ltb_spec b0 0x80); [lia |].
  destruct (Z.ltb_spec b0 0xC2); [simpl; lia |].
  destruct (Z.ltb_spec b0 0xE0).
  { destruct rest as [| b1 rest]; [simpl; lia |].
    destruct (_ && _); [| simpl; lia]. simpl fst.
    etransitivity; [| apply lor_lower_l; apply land_mask_nonneg; lia].
    change 0x1F with (Z.ones 5). rewrite land_low, Z.shiftl_mul_pow2 by lia.
    change (2 ^ 5) with 32. change (2 ^ 6) with 64.
    Z.div_mod_to_equations. lia. }
  destruct (Z.ltb_spec b0 0xF0).
  { destruct rest as [| b1 [| b2 rest]]; try (simpl; lia).
    destruct (Z.eqb_spec b0 0xE0) as [-> | Hne].
    - simpl (0xE0 =? 0xED).
      destruct (Z.leb_spec 0xA0 b1); [| simpl; lia].
      destruct (Z.leb_spec b1 0xBF); [| simpl; lia].
      destruct (_ && _); [| simpl; lia]. simpl fst.
      etransitivity; [| apply lor_lower_r; apply shiftl_mask_nonneg; lia].
      etransitivity; [| apply lor_lower_l; apply land_mask_nonneg; lia].
      change 0x3F with (Z.ones 6). rewrite land_low, Z.shiftl_mul_pow2 by lia.
      change (2 ^ 6) with 64.
      Z.div_mod_to_equations. lia.
    - destruct (_ && _); [| simpl; lia]. simpl fst.
      etransitivity; [| apply lor_lower_l; apply Z.lor_nonneg; split;
                        [apply shiftl_mask_nonneg | apply land_mask_nonneg]; lia].
      change 0x0F with (Z.ones 4). rewrite land_low, Z.shiftl_mul_pow2 by lia.
      change (2 ^ 4) with 16. change (2 ^ 12) with 4096.
      Z.div_mod_to_equations. lia. }
  destruct (Z.ltb_spec b0 0xF5); [| simpl; lia].
  destruct rest as [| b1 [| b2 [| b3 rest]]]; try (simpl; lia).
  assert (Hrest : 0 <= Z.lor (Z.shiftl (Z.land b2 0x3F) 6) (Z.land b3 0x3F)).
  { apply Z.lor_nonneg; split;
      [apply shiftl_mask_nonneg | apply land_mask_nonneg]; lia. }
  destruct (Z.eqb_spec b0 0xF0) as [-> | Hne].
  - simpl (0xF0 =? 0xF4).
    destruct (Z.leb_spec 0x90 b1); [| simpl; lia].
    destruct (Z.leb_spec b1 0xBF); [| simpl; lia].
    destruct (_ && _); [| simpl; lia]. simpl fst.
    etransitivity; [| apply lor_lower_r; apply shiftl_mask_nonneg; lia].
    etransitivity; [| apply lor_lower_l; exact Hrest].
    change 0x3F with (Z.ones 6). rewrite land_low, Z.shiftl_mul_pow2 by lia.
    change (2 ^ 6) with 64. change (2 ^ 12) with 4096.
    Z.div_mod_to_equations. lia.
  - destruct (_ && _); [| simpl; lia]. simpl fst.
    etransitivity; [| apply lor_lower_l; apply Z.lor_nonneg; split;
                      [apply shiftl_mask_nonneg; lia | exact Hrest]].
    change 0x07 with (Z.ones 3). rewrite land_low, Z.shiftl_mul_pow2 by lia.
    change (2 ^ 3) with 8. change (2 ^ 18) with 262144.
    Z.div_mod_to_equations. lia.
Qed.

End GoStringFacts.

Module ValidationFacts.
Import GoString GoStringFacts.

Lemma rangeFrom_cons b0 rest :
  rangeFrom 0 (b0 :: rest) =
  fst (DecodeRune (b0 :: rest))
    :: rangeFrom (Nat.pred (snd (DecodeRune (b0 :: rest)))) rest.
Proof.
  change (rangeFrom 0 (b0 :: rest))
    with (let '(r, w) := DecodeRune (b0 :: rest) in
          r :: rangeFrom (Nat.pred w) rest).
  now destruct (DecodeRune (b0 :: rest)).
Qed.

(** The loop rejects a string exactly when one of its bytes is outside
    'A'..'Z': a byte below 0x80 is a rune of its own, and from the first
    byte at or above 0x80 on the loop has already returned. *)
Lemma existsb_rangeFrom p :
  existsb notUpper (rangeFrom 0 p) = existsb notUpper p.
Proof.
  induction p as [| b0 rest IH]; [reflexivity |].
  rewrite rangeFrom_cons.
  destruct (Z.lt_ge_cases b0 0x80) as [Hlo | Hhi].
  - rewrite DecodeRune_ascii by assumption. cbn [fst snd Nat.pred existsb].
    now rewrite IH.
  - pose proof (DecodeRune_high b0 rest Hhi) as Hr.
    cbn [existsb].
    replace (fst (DecodeRune (b0 :: rest)) >? 90) with true
      by (symmetry; apply Z.gtb_lt; lia).
    replace (b0 >? 90) with true by (symmetry; apply Z.gtb_lt; lia).
    now rewrite !orb_true_r.
Qed.

Lemma notUpper_byteOf a :
  notUpper (byteOf a) = negb (isUppercaseLetter a).
Proof.
  unfold isUppercaseLetter, Ascii.leb, Ascii.compare, byteOf.
  change (N_of_ascii "A") with 65%N. change (N_of_ascii "Z") with 90%N.
  destruct (N.compare_spec 65 (N_of_ascii a));
    destruct (N.compare_spec (N_of_ascii a) 90);
    destruct (Z.ltb_spec (Z.of_N (N_of_ascii a)) 65);
    destruct (Z.gtb_spec (Z.of_N (N_of_ascii a)) 90);
    simpl; try reflexivity; lia.
Qed.

(** The two guards at the head of [fetchExchangeRates] together are the
    specification's format check. *)
Lemma guards_spec s :
  negb (len s =? 3) || existsb notUpper (runes s)
  = negb (validCurrencyCode s).
Proof.
  unfold runes. rewrite existsb_rangeFrom.
  destruct s as [| a [| b [| c [| d s]]]]; try reflexivity.
  - cbn [len String.length bytes list_ascii_of_string List.map existsb
           validCurrencyCode].
    change (len (String a (String b (String c EmptyString))) =? 3) with true.
    cbn [negb orb].
    rewrite !notUpper_byteOf, orb_false_r, !negb_andb.
    now rewrite orb_assoc.
  - unfold len. cbn [String.length validCurrencyCode negb].
    destruct (Z.eqb_spec (Z.of_nat (S (S (S (S (String.length s)))))) 3);
      [lia | reflexivity].
Qed.

End ValidationFacts.

(** ** Validation before the network (C4) *)

(** C4.  A base currency that is not exactly three uppercase ASCII letters
    makes [fetchExchangeRates] return one of its two validation errors and
    leaves the world, call log included, as it was: no request is issued.
    A base currency that passes makes it issue exactly one request, for
    the address built from that currency. *)
Theorem fetch_validates_before_any_request
    (env : Env) (cfg : Config) (baseCurrency : string) (w : World) :
  if validCurrencyCode baseCurrency
  then calls (snd (fetchExchangeRates env cfg baseCurrency w))
       = calls w ++ [HttpGet (rateUrl cfg baseCurrency)]
  else exists e,
       fetchExchangeRates env cfg baseCurrency w = (Err e, w)
       /\ isValidationError e = true.
Proof.
  pose proof (ValidationFacts.guards_spec baseCurrency) as G.
  unfold fetchExchangeRates.
  destruct (validCurrencyCode baseCurrency); cbn [negb] in G.
  - apply orb_false_iff in G as [-> ->].
    unfold bind, httpGet, logCall, ret.
    destruct (httpResponse env (ordinal w) (rateUrl cfg baseCurrency))
      as [| status [| r]]; cbn [snd calls]; try reflexivity.
    + now destruct (negb (status =? 200)).
    + destruct (negb (status =? 200)); [reflexivity |].
      now destruct (_ && _).
  - destruct (negb (GoString.len baseCurrency =? 3)).
    + exists ErrBaseCurrencyLength. now split.
    + cbn [orb] in G. rewrite G.
      exists ErrBaseCurrencyUppercase. now split.
Qed.

(** ** The calls, one by one *)

Section StepFacts.

Context (env : Env) (cfg : Config).

Lemma checkExisting_unfold baseCurrency date w :
  checkExistingExchangeRates env cfg baseCurrency date w =
  (if getItemFails env (ordinal w) (baseCurrency, date)
   then Err (ErrCheckExisting baseCurrency date)
   else match table w !! (baseCurrency, date) with
        | None => Ok None
        | Some item =>
          match UnmarshalRates item with
          | None => Err (ErrUnmarshalExisting baseCurrency)
          | Some record => Ok (Some record)
          end
        end,
   logged (GetItem (tableName cfg) (baseCurrency, date)) w).
Proof.
  unfold checkExistingExchangeRates, MarshalKey, bind, dynamoGetItem, logCall,
    ret, logged.
  destruct (getItemFails env (ordinal w) (baseCurrency, date)); [reflexivity |].
  destruct (table w !! (baseCurrency, date)) as [item |]; [| reflexivity].
  now destruct (UnmarshalRates item).
Qed.

Lemma fetch_world baseCurrency w :
  snd (fetchExchangeRates env cfg baseCurrency w) = w
  ∨ snd (fetchExchangeRates env cfg baseCurrency w)
    = logged (HttpGet (rateUrl cfg baseCurrency)) w.
Proof.
  unfold fetchExchangeRates, bind, httpGet, logCall, ret, logged.
  destruct (negb _); [now left |].
  destruct (existsb _ _); [now left |].
  right.
  destruct (httpResponse env (ordinal w) (rateUrl cfg baseCurrency))
    as [| status [| r]]; try reflexivity.
  - now destruct (negb (status =? 200)).
  - destruct (negb (status =? 200)); [reflexivity |].
    now destruct (_ && _).
Qed.

Lemma store_unfold baseCurrency date rates w :
  storeExchangeRates env cfg baseCurrency date rates w =
  let item := RatesItem (stamped env baseCurrency date rates w) in
  if putItemFails env (ordinal w) item
  then (Some (ErrStoreRates baseCurrency),
        logged (PutItem (tableName cfg) item) w)
  else (None,
        {| table := <[(baseCurrency, date) := item]> (table w);
           calls := calls w ++ [PutItem (tableName cfg) item] |}).
Proof.
  unfold storeExchangeRates, MarshalRates, bind, dynamoPutItem, logCall, ret,
    logged, stamped, timeNow.
  destruct (clock env (ordinal w)) as [s ns]. cbn [fst itemKey Key SortKey].
  now destruct (putItemFails env (ordinal w) _).
Qed.

Lemma lookupKeys_snoc l c :
  lookupKeys (l ++ [c]) =
  lookupKeys l ++ match c with GetItem _ key => [key] | _ => [] end.
Proof.
  unfold lookupKeys. rewrite omap_app. f_equal. now destruct c.
Qed.

Lemma fetch_lookups baseCurrency w :
  lookupKeys (calls (snd (fetchExchangeRates env cfg baseCurrency w)))
  = lookupKeys (calls w).
Proof.
  destruct (fetch_world baseCurrency w) as [-> | ->]; [reflexivity |].
  unfold logged. cbn [calls]. rewrite lookupKeys_snoc. apply app_nil_r.
Qed.

Lemma store_lookups baseCurrency date rates w :
  lookupKeys (calls (snd (storeExchangeRates env cfg baseCurrency date rates w)))
  = lookupKeys (calls w).
Proof.
  rewrite store_unfold. cbv zeta.
  destruct (putItemFails env (ordinal w) _); unfold logged; cbn [snd calls];
    rewrite lookupKeys_snoc; apply app_nil_r.
Qed.

(** An iteration bumps the counter of its outcome, whatever the counters
    were, and leaves a world that does not depend on them. *)
Lemma processCurrency_bump date baseCurrency c w :
  processCurrency env cfg date baseCurrency c w =
  (bump (stepOutcome env cfg date baseCurrency w) c,
   snd (processCurrency env cfg date baseCurrency zeroCounters w)).
Proof.
  unfold processCurrency, stepOutcome, bind, ret.
  destruct (checkExistingExchangeRates env cfg baseCurrency date w)
    as [[[existing |] | e] w1]; try reflexivity.
  destruct (fetchExchangeRates env cfg baseCurrency w1)
    as [[rates | e] w2]; try reflexivity.
  destruct (storeExchangeRates env cfg baseCurrency date rates w2)
    as [[e |] w3]; reflexivity.
Qed.

Lemma processCurrency_lookups date baseCurrency c w :
  lookupKeys (calls (snd (processCurrency env cfg date baseCurrency c w)))
  = lookupKeys (calls w) ++ [(baseCurrency, date)].
Proof.
  unfold processCurrency, bind, ret.
  rewrite checkExisting_unfold.
  set (w1 := logged _ w).
  assert (H1 : lookupKeys (calls w1)
               = lookupKeys (calls w) ++ [(baseCurrency, date)])
    by (unfold w1, logged; cbn [calls]; apply lookupKeys_snoc).
  destruct (getItemFails env (ordinal w) (baseCurrency, date)); [exact H1 |].
  destruct (table w !! (baseCurrency, date)) as [item |].
  { now destruct (UnmarshalRates item). }
  pose proof (fetch_lookups baseCurrency w1) as H2.
  destruct (fetchExchangeRates env cfg baseCurrency w1) as [[rates | e] w2];
    cbn [snd] in H2 |- *; [| congruence].
  pose proof (store_lookups baseCurrency date rates w2) as H3.
  destruct (storeExchangeRates env cfg baseCurrency date rates w2)
    as [[e |] w3]; cbn [snd] in H3 |- *; congruence.
Qed.

Lemma countOf_cons o x l :
  countOf o (x :: l) = (if decide (x = o) then 1 else 0) + countOf o l.
Proof.
  unfold countOf. rewrite filter_cons.
  destruct (decide (x = o)); cbn [length]; lia.
Qed.

(** The loop: lookups in list order, counters advanced by the outcomes. *)
Lemma processAll_spec date currencies : ∀ c w,
  let '(c', w') := processAll env cfg date currencies c w in
  lookupKeys (calls w')
  = lookupKeys (calls w) ++ List.map (λ cur, (cur, date)) currencies
  ∧ successCount c'
    = successCount c + countOf Succeeded (outcomes env cfg date currencies w)
  ∧ errorCount c'
    = errorCount c + countOf Errored (outcomes env cfg date currencies w)
  ∧ skippedCount c'
    = skippedCount c + countOf Skipped (outcomes env cfg date currencies w).
Proof.
  induction currencies as [| cur rest IH]; intros c w.
  - cbn [processAll outcomes List.map]. unfold ret, countOf.
    rewrite app_nil_r. cbn. repeat split; lia.
  - cbn [processAll outcomes List.map]. unfold bind.
    pose proof (processCurrency_lookups date cur c w) as HL.
    rewrite processCurrency_bump in HL |- *. cbn [snd] in HL.
    specialize (IH (bump (stepOutcome env cfg date cur w) c)
                   (snd (processCurrency env cfg date cur zeroCounters w))).
    destruct (processAll env cfg date rest _ _) as [c' w'].
    destruct IH as (IHl & IHs & IHe & IHk).
    rewrite !countOf_cons.
    split; [rewrite IHl, HL, <- app_assoc; reflexivity |].
    rewrite IHs, IHe, IHk. clear.
    destruct (stepOutcome env cfg date cur w);
      cbn [bump incSuccess incError incSkipped successCount errorCount
             skippedCount] in *;
      repeat case_decide; try congruence; repeat split; lia.
Qed.

End StepFacts.

(** ** The loop and the classification (C1, C3, C10) *)

Lemma processAll_fold env cfg date currencies : ∀ c w,
  fst (processAll env cfg date currencies c w)
  = foldl (λ c o, bump o c) c (outcomes env cfg date currencies w).
Proof.
  induction currencies as [| cur rest IH]; intros c w; [reflexivity |].
  cbn [processAll outcomes foldl]. unfold bind.
  rewrite processCurrency_bump. apply IH.
Qed.

Lemma outcomes_length env cfg date currencies : ∀ w,
  length (outcomes env cfg date currencies w) = length currencies.
Proof.
  induction currencies as [| cur rest IH]; intros w; [reflexivity |].
  cbn [outcomes length]. now rewrite IH.
Qed.

Lemma countOf_total (l : list Outcome) :
  countOf Succeeded l + countOf Errored l + countOf Skipped l
  = Z.of_nat (length l).
Proof.
  induction l as [| o l IH]; [reflexivity |].
  rewrite !countOf_cons. cbn [length].
  destruct o; repeat case_decide; try congruence; lia.
Qed.

Lemma classify_spec c :
  classify c = Some (ErrAllFailed (errorCount c))
  ∧ (0 < errorCount c ∧ successCount c = 0 ∧ skippedCount c = 0)
  ∨ classify c = None
  ∧ ¬ (0 < errorCount c ∧ successCount c = 0 ∧ skippedCount c = 0).
Proof.
  unfold classify.
  destruct (Z.gtb_spec (errorCount c) 0);
    destruct (Z.eqb_spec (successCount c) 0);
    destruct (Z.eqb_spec (skippedCount c) 0);
    cbn [andb]; first [left; split; [reflexivity | lia] | right; split; [reflexivity | lia]].
Qed.

(** C1.  With [c] the counters at the end of the loop, [handler] returns
    the all-failed error exactly when [errorCount c > 0],
    [successCount c = 0] and [skippedCount c = 0]; for every other
    combination of counts it returns nil. *)
Theorem handler_fails_iff_only_errors (env : Env) (cfg : Config) (w : World) :
  let c := fst (handlerCounts env cfg w) in
  fst (handler env cfg w) = Some (ErrAllFailed (errorCount c))
  ∧ (0 < errorCount c ∧ successCount c = 0 ∧ skippedCount c = 0)
  ∨ fst (handler env cfg w) = None
  ∧ ¬ (0 < errorCount c ∧ successCount c = 0 ∧ skippedCount c = 0).
Proof.
  unfold handler, bind, ret.
  destruct (handlerCounts env cfg w) as [c w']. cbn [fst].
  apply classify_spec.
Qed.

(** C3.  Whatever the environment answers to the lookups, fetches and
    writes, the loop looks every currency of the list up exactly once, in
    list order; every iteration has an outcome, the counters end as the
    outcomes bumped one after the other, so that every iteration that
    met an error adds exactly one to the error counter and the next
    currency is processed all the same. *)
Theorem loop_visits_every_currency_in_order
    (env : Env) (cfg : Config) (date : string) (currencies : list string)
    (c : Counters) (w : World) :
  let os := outcomes env cfg date currencies w in
  let c' := fst (processAll env cfg date currencies c w) in
  let w' := snd (processAll env cfg date currencies c w) in
  lookupKeys (calls w')
  = lookupKeys (calls w) ++ List.map (λ cur, (cur, date)) currencies
  ∧ length os = length currencies
  ∧ c' = foldl (λ c o, bump o c) c os
  ∧ errorCount c' = errorCount c + countOf Errored os.
Proof.
  cbv zeta.
  pose proof (processAll_spec env cfg date currencies c w) as H.
  pose proof (processAll_fold env cfg date currencies c w) as F.
  destruct (processAll env cfg date currencies c w) as [c' w'].
  cbn [fst snd] in *. destruct H as (Hl & _ & He & _).
  repeat split; try assumption. apply outcomes_length.
Qed.

(** C10.  An iteration increments exactly one of the three counters; at
    the classification the three add up to the number of configured
    currencies; with no currency configured all three are zero and
    [handler] returns nil. *)
Theorem counters_add_up_to_currency_count
    (env : Env) (cfg : Config) (w : World) :
  (∀ date baseCurrency c w0,
     let c' := fst (processCurrency env cfg date baseCurrency c w0) in
     c' = incSuccess c ∨ c' = incError c ∨ c' = incSkipped c)
  ∧ (let c := fst (handlerCounts env cfg w) in
     successCount c + errorCount c + skippedCount c
     = Z.of_nat (length (supportedCurrencies cfg)))
  ∧ (∀ tbl key,
     let cfg0 := {| tableName := tbl; apiKey := key;
                    supportedCurrencies := [] |} in
     fst (handlerCounts env cfg0 w) = zeroCounters
     ∧ fst (handler env cfg0 w) = None).
Proof.
  split; [| split].
  - intros date cur c w0. cbv zeta. rewrite processCurrency_bump. cbn [fst].
    destruct (stepOutcome env cfg date cur w0); cbn [bump]; auto.
  - unfold handlerCounts, bind. cbv zeta.
    destruct (storeSupportedCurrencies env cfg w) as [r w1].
    pose proof (processAll_spec env cfg (formatDate (today env))
                  (supportedCurrencies cfg) zeroCounters w1) as H.
    destruct (processAll env cfg _ _ zeroCounters w1) as [c w'].
    destruct H as (_ & Hs & He & Hk). cbn [fst].
    rewrite Hs, He, Hk. cbn [zeroCounters successCount errorCount skippedCount].
    pose proof (countOf_total (outcomes env cfg (formatDate (today env))
                                 (supportedCurrencies cfg) w1)) as T.
    rewrite outcomes_length in T. lia.
  - intros tbl key. cbv zeta.
    unfold handler, handlerCounts, bind, ret.
    destruct (storeSupportedCurrencies env _ w) as [r w1].
    cbn [supportedCurrencies processAll]. unfold ret. cbn [fst].
    split; reflexivity.
Qed.

(** ** The idempotency guard (C2) *)

(** C2, as the code has it.  When the table holds an exchange-rate record
    for the currency and the date, the iteration makes one call only, the
    lookup, hence neither a fetch nor a write, and leaves the table as it
    was; it increments the skipped counter alone when the lookup
    succeeds, and the error counter alone when the lookup itself fails. *)
Theorem held_record_skips_fetch_and_put
    (env : Env) (cfg : Config) (date baseCurrency : string) (c : Counters)
    (w : World) (r : ExchangeRateRecord) :
  table w !! (baseCurrency, date) = Some (RatesItem r) →
  let c' := fst (processCurrency env cfg date baseCurrency c w) in
  let w' := snd (processCurrency env cfg date baseCurrency c w) in
  calls w' = calls w ++ [GetItem (tableName cfg) (baseCurrency, date)]
  ∧ table w' = table w
  ∧ c' = if getItemFails env (ordinal w) (baseCurrency, date)
         then incError c else incSkipped c.
Proof.
  intros Hheld. cbv zeta. unfold processCurrency, bind, ret.
  rewrite checkExisting_unfold, Hheld. cbn [UnmarshalRates].
  destruct (getItemFails env (ordinal w) (baseCurrency, date));
    cbn [fst snd calls table]; repeat split; reflexivity.
Qed.

Lemma held_record_skips_fetch_and_put_witness :
  table eurHeldWorld !! ("EUR", formatDate aDate) = Some (RatesItem eurRecord)
  ∧ fst (processCurrency errorResultEnv publicConfig (formatDate aDate) "EUR"
           zeroCounters eurHeldWorld)
    = incSkipped zeroCounters.
Proof.
  split; [reflexivity |].
  apply (held_record_skips_fetch_and_put errorResultEnv publicConfig
           (formatDate aDate) "EUR" zeroCounters eurHeldWorld eurRecord).
  reflexivity.
Defined.

(** The table holds the record for EUR, the lookup fails: the error
    counter is incremented, the skipped counter is not. *)
Lemma held_record_lookup_fault_counts_as_error :
  table eurHeldWorld !! ("EUR", formatDate aDate) = Some (RatesItem eurRecord)
  ∧ fst (processCurrency lookupFaultEnv publicConfig (formatDate aDate) "EUR"
           zeroCounters eurHeldWorld)
    = {| successCount := 0; errorCount := 1; skippedCount := 0 |}
  ∧ fst (processCurrency lookupFaultEnv publicConfig (formatDate aDate) "EUR"
           zeroCounters eurHeldWorld)
    ≠ incSkipped zeroCounters.
Proof.
  split; [reflexivity |]. split; [reflexivity |].
  intros H. discriminate H.
Qed.

(** ** The result field of the response (C5) *)

(** C5, as the code has it.  For a well-formed currency code, a response
    with status 200 whose body decodes is accepted exactly when its
    result field is empty or "success", and rejected otherwise; the check
    does not look at the API key, so it applies to the public endpoint as
    it does to the authenticated one. *)
Theorem fetch_checks_result_of_every_response
    (env : Env) (cfg : Config) (baseCurrency : string) (w : World)
    (r : ExchangeRateResponse) :
  validCurrencyCode baseCurrency = true →
  httpResponse env (ordinal w) (rateUrl cfg baseCurrency)
  = Response 200 (Decodes r) →
  fst (fetchExchangeRates env cfg baseCurrency w)
  = if bool_decide (Result r = EmptyString ∨ Result r = "success")
    then Ok r else Err (ErrApiResult (Result r)).
Proof.
  intros Hvalid Hresp.
  pose proof (ValidationFacts.guards_spec baseCurrency) as G.
  rewrite Hvalid in G. apply orb_false_iff in G as [G1 G2].
  unfold fetchExchangeRates. rewrite G1, G2.
  unfold bind, httpGet, logCall, ret. rewrite Hresp.
  change (negb (200 =? 200)) with false. cbv iota.
  repeat case_bool_decide; cbn [andb fst]; try reflexivity; tauto.
Qed.

Lemma fetch_checks_result_of_every_response_witness :
  validCurrencyCode "EUR" = true
  ∧ fst (fetchExchangeRates (scenarioEnv publicConfig aDate aClock)
           publicConfig "EUR" emptyWorld)
    = Ok eurResponse.
Proof.
  split; [reflexivity |].
  apply (fetch_checks_result_of_every_response
           (scenarioEnv publicConfig aDate aClock) publicConfig "EUR"
           emptyWorld eurResponse); reflexivity.
Defined.

(** No API key, status 200, a body that decodes, and yet an error: the
    body says "result":"error". *)
Lemma public_endpoint_result_error_is_rejected :
  apiKey publicConfig = EmptyString
  ∧ httpResponse errorResultEnv (ordinal emptyWorld) (rateUrl publicConfig "EUR")
    = Response 200 (Decodes errorResultResponse)
  ∧ fst (fetchExchangeRates errorResultEnv publicConfig "EUR" emptyWorld)
    = Err (ErrApiResult "error").
Proof. repeat split; reflexivity. Qed.

(** ** Writing and reading back (C8) *)

Lemma unixToInternal_value : unixToInternal = 62135596800.
Proof. reflexivity. Qed.

(** time.Now() is never the zero time. *)
Lemma timeNow_not_zero env w : IsZero (fst (timeNow env w)) = false.
Proof.
  unfold timeNow, IsZero. destruct (clock env (ordinal w)) as [s ns].
  cbn [fst sec nsec]. rewrite unixToInternal_value.
  destruct (Z.eqb_spec (62135596800 + Z.of_N s) 0); [lia | reflexivity].
Qed.

(** C8, as the code has it.  After a write that succeeded, a lookup of the
    same currency and date that does not itself fail returns a record
    with the rate mapping that was written and with the time the write
    read off the clock, which is not the zero time. *)
Theorem put_then_get_round_trip
    (env : Env) (cfg : Config) (baseCurrency date : string)
    (rates : ExchangeRateResponse) (w w1 : World) :
  storeExchangeRates env cfg baseCurrency date rates w = (None, w1) →
  getItemFails env (ordinal w1) (baseCurrency, date) = false →
  ∃ r,
    fst (checkExistingExchangeRates env cfg baseCurrency date w1) = Ok (Some r)
    ∧ ExchangeRates r = ConversionRates rates
    ∧ UpdatedAt r = fst (timeNow env w)
    ∧ IsZero (UpdatedAt r) = false.
Proof.
  intros Hput Hget. rewrite store_unfold in Hput. cbv zeta in Hput.
  destruct (putItemFails env (ordinal w) _); [discriminate |].
  injection Hput as <-.
  rewrite checkExisting_unfold. cbn [fst table] in *. rewrite Hget.
  rewrite lookup_insert_eq. cbn [UnmarshalRates].
  eexists; split; [reflexivity |].
  cbn [ExchangeRates UpdatedAt]. repeat split. apply timeNow_not_zero.
Qed.

Lemma put_then_get_round_trip_witness :
  ∃ r,
    fst (checkExistingExchangeRates errorResultEnv publicConfig "EUR"
           (formatDate aDate)
           (snd (storeExchangeRates errorResultEnv publicConfig "EUR"
                   (formatDate aDate) eurResponse emptyWorld)))
    = Ok (Some r)
    ∧ ExchangeRates r = ConversionRates eurResponse
    ∧ UpdatedAt r = fst (timeNow errorResultEnv emptyWorld)
    ∧ IsZero (UpdatedAt r) = false.
Proof.
  apply (put_then_get_round_trip errorResultEnv publicConfig "EUR"
           (formatDate aDate) eurResponse emptyWorld); reflexivity.
Defined.

(** The write succeeds, the lookup that follows fails: no record comes
    back. *)
Lemma put_then_failed_get_returns_no_record :
  fst (storeExchangeRates lookupFaultEnv publicConfig "EUR" (formatDate aDate)
         eurResponse emptyWorld) = None
  ∧ fst (checkExistingExchangeRates lookupFaultEnv publicConfig "EUR"
           (formatDate aDate)
           (snd (storeExchangeRates lookupFaultEnv publicConfig "EUR"
                   (formatDate aDate) eurResponse emptyWorld)))
    = Err (ErrCheckExisting "EUR" "2026-03-07").
Proof. split; reflexivity. Qed.

(** ** The scenario with EUR and GBP (C6) *)

Lemma append_cancel_l (p a b : string) : p +:+ a = p +:+ b → a = b.
Proof.
  induction p as [| ch p IH]; cbn [String.append]; intros H; [exact H |].
  injection H as H. now apply IH.
Qed.

(** Different currencies are requested at different addresses. *)
Lemma rateUrl_inj cfg a b : rateUrl cfg a = rateUrl cfg b → a = b.
Proof.
  unfold rateUrl. case_bool_decide; intros Hu.
  - now do 3 apply append_cancel_l in Hu.
  - now apply append_cancel_l in Hu.
Qed.

(** [fetchExchangeRates] past its validation. *)
Lemma fetch_valid_unfold env cfg baseCurrency w :
  validCurrencyCode baseCurrency = true →
  fetchExchangeRates env cfg baseCurrency w =
  (match httpResponse env (ordinal w) (rateUrl cfg baseCurrency) with
   | TransportError => Err ErrFetchFailed
   | Response StatusCode body =>
     if negb (StatusCode =? 200) then Err (ErrApiStatus StatusCode)
     else match body with
          | Undecodable => Err ErrDecodeResponse
          | Decodes r =>
            if bool_decide (Result r ≠ EmptyString) && bool_decide (Result r ≠ "success")
            then Err (ErrApiResult (Result r))
            else Ok r
          end
   end,
   {| table := table w;
      calls := calls w ++ [HttpGet (rateUrl cfg baseCurrency)] |}).
Proof.
  intros Hvalid.
  pose proof (ValidationFacts.guards_spec baseCurrency) as G.
  rewrite Hvalid in G. apply orb_false_iff in G as [G1 G2].
  unfold fetchExchangeRates. rewrite G1, G2.
  unfold bind, httpGet, logCall, ret.
  destruct (httpResponse env (ordinal w) (rateUrl cfg baseCurrency))
    as [| status [| r]]; try reflexivity.
  - now destruct (negb (status =? 200)).
  - destruct (negb (status =? 200)); [reflexivity |].
    now destruct (_ && _).
Qed.

(** The record [storeSupportedCurrencies] builds in world [w]. *)
Lemma storeSupported_unfold env cfg w :
  storeSupportedCurrencies env cfg w =
  let item :=
    CurrenciesItem {| scKey := "SupportedCurrencies"; scSortKey := "-";
                      SupportedCurrencies := supportedCurrencies cfg;
                      scUpdatedAt := fst (timeNow env w) |} in
  if putItemFails env (ordinal w) item
  then (Some ErrStoreSupported,
        {| table := table w;
           calls := calls w ++ [PutItem (tableName cfg) item] |})
  else (None,
        {| table := <[singletonKey := item]> (table w);
           calls := calls w ++ [PutItem (tableName cfg) item] |}).
Proof.
  unfold storeSupportedCurrencies, MarshalSupported, bind, dynamoPutItem,
    logCall, ret, timeNow.
  destruct (clock env (ordinal w)) as [s ns]. cbn [fst].
  now destruct (putItemFails env (ordinal w) _).
Qed.

(** C6.  Currencies EUR and GBP, an empty table, a store that answers,
    the response with USD 1.1 and JPY 160 for EUR and a network error for
    GBP: the EUR record is written with exactly these two rates, nothing
    is written for GBP, the counters end at one success, one error and no
    skip, and [handler] returns nil.  The call log shows all that was
    done. *)
Theorem scenario_eur_succeeds_gbp_fails
    (tbl key : string) (d : Date) (clk : nat → N * N) :
  let cfg := scenarioConfig tbl key in
  let env := scenarioEnv cfg d clk in
  let date := formatDate d in
  let c := fst (handlerCounts env cfg emptyWorld) in
  let w' := snd (handler env cfg emptyWorld) in
  let eurItem :=
    RatesItem {| Key := "EUR"; SortKey := date;
                 ExchangeRates := {[ "USD" := rate_1_1; "JPY" := rate_160 ]};
                 UpdatedAt := {| sec := unixToInternal + Z.of_N (fst (clk 3%nat));
                                 nsec := Z.of_N (snd (clk 3%nat)) |} |} in
  c = {| successCount := 1; errorCount := 1; skippedCount := 0 |}
  ∧ fst (handler env cfg emptyWorld) = None
  ∧ table w' !! ("EUR", date) = Some eurItem
  ∧ table w' !! ("GBP", date) = None
  ∧ ∃ scItem,
      calls w' = [PutItem tbl (CurrenciesItem scItem);
                  GetItem tbl ("EUR", date);
                  HttpGet (rateUrl cfg "EUR");
                  PutItem tbl eurItem;
                  GetItem tbl ("GBP", date);
                  HttpGet (rateUrl cfg "GBP")].
Proof.
  cbv zeta.
  assert (Hgbp : bool_decide (rateUrl (scenarioConfig tbl key) "GBP"
                              = rateUrl (scenarioConfig tbl key) "EUR") = false).
  { apply bool_decide_eq_false. intros H. apply rateUrl_inj in H. discriminate. }
  assert (Heur : bool_decide (rateUrl (scenarioConfig tbl key) "EUR"
                              = rateUrl (scenarioConfig tbl key) "EUR") = true)
    by now apply bool_decide_eq_true.
  unfold handler, handlerCounts, bind, ret.
  rewrite storeSupported_unfold. cbv zeta.
  cbn [scenarioEnv putItemFails today scenarioConfig supportedCurrencies
         tableName processAll].
  unfold bind, ret, processCurrency, bind, ret.
  rewrite checkExisting_unfold. unfold logged.
  cbn [scenarioEnv getItemFails table calls emptyWorld tableName app].
  rewrite lookup_insert_ne by (unfold singletonKey; congruence).
  rewrite lookup_empty.
  rewrite fetch_valid_unfold by reflexivity.
  cbn [scenarioEnv httpResponse ordinal calls length table tableName app].
  fold (scenarioConfig tbl key). rewrite Heur.
  change (negb (200 =? 200)) with false. cbv iota.
  cbn [eurResponse Result bool_decide andb].
  change (bool_decide ("success" ≠ "success")) with false.
  rewrite andb_false_r.
  rewrite store_unfold. cbv zeta. unfold logged, stamped.
  cbn [scenarioEnv putItemFails table calls tableName app ordinal length
         timeNow clock fst ConversionRates eurResponse].
  rewrite checkExisting_unfold. unfold logged.
  cbn [scenarioEnv getItemFails table calls tableName app].
  rewrite lookup_insert_ne by congruence.
  rewrite lookup_insert_ne by (unfold singletonKey; congruence).
  rewrite lookup_empty.
  rewrite fetch_valid_unfold by reflexivity.
  cbn [scenarioEnv httpResponse ordinal calls length table tableName app].
  fold (scenarioConfig tbl key). rewrite Hgbp.
  cbn [fst snd table calls app incSuccess incError zeroCounters successCount
         errorCount skippedCount classify].
  unfold timeNow.
  cbn [scenarioEnv clock ordinal calls length emptyWorld].
  destruct (clk 3%nat) as [s ns] eqn:Eclk. cbn [fst snd].
  repeat split.
  - now rewrite lookup_insert_eq.
  - rewrite lookup_insert_ne by congruence.
    rewrite lookup_insert_ne by (unfold singletonKey; congruence).
    apply lookup_empty.
  - eexists. reflexivity.
Qed.

(** ** The write of the supported-currencies record (C7) *)

(** The date never reads "-": it has two hyphens in it. *)
Lemma length_append (a b : string) :
  String.length (a +:+ b) = (String.length a + String.length b)%nat.
Proof. induction a as [| ch a IH]; simpl; [reflexivity | now f_equal]. Qed.

Lemma formatDate_not_hyphen d : formatDate d ≠ "-".
Proof.
  intros H. apply (f_equal String.length) in H.
  unfold formatDate in H. rewrite !length_append in H. cbn in H. lia.
Qed.

Section Alike.

Context (n : nat) (e1 e2 : Env) (cfg : Config).
Hypothesis Hagree : agreeExceptPut n e1 e2.

Lemma alike_ret {A} (a : A) : alike n (ret a) (ret a).
Proof. intros w1 w2 R. now split. Qed.

Lemma alike_bind {A B} (m1 m2 : M A) (k1 k2 : A → M B) :
  alike n m1 m2 → (∀ a, alike n (k1 a) (k2 a)) →
  alike n (bind m1 k1) (bind m2 k2).
Proof.
  intros Hm Hk w1 w2 R. unfold bind.
  destruct (Hm w1 w2 R) as [E R'].
  destruct (m1 w1) as [a1 w1'], (m2 w2) as [a2 w2']. cbn [fst snd] in E, R'.
  subst a2. now apply Hk.
Qed.

Lemma sameOffSingleton_logged c w1 w2 :
  sameOffSingleton n w1 w2 →
  sameOffSingleton n {| table := table w1; calls := calls w1 ++ [c] |}
                     {| table := table w2; calls := calls w2 ++ [c] |}.
Proof.
  intros (Hc & Hn & Ht). unfold sameOffSingleton, ordinal in *. cbn [calls table].
  rewrite Hc. split; [reflexivity |]. split; [| exact Ht].
  rewrite length_app. cbn [length]. rewrite <- Hc. lia.
Qed.

Lemma alike_getItem key :
  key ≠ singletonKey →
  alike n (dynamoGetItem e1 cfg key) (dynamoGetItem e2 cfg key).
Proof.
  intros Hkey w1 w2 R.
  pose proof (sameOffSingleton_logged (GetItem (tableName cfg) key) w1 w2 R) as R'.
  destruct R as (Hc & Hn & Ht). destruct Hagree as (_ & _ & Hget & _).
  assert (Ho : ordinal w1 = ordinal w2) by (unfold ordinal; now rewrite Hc).
  unfold dynamoGetItem, logCall. rewrite Ho, Hget, (Ht key Hkey).
  destruct (getItemFails e2 (ordinal w2) key); cbn [fst snd];
    (split; [reflexivity | exact R']).
Qed.

Lemma alike_httpGet url : alike n (httpGet e1 url) (httpGet e2 url).
Proof.
  intros w1 w2 R.
  pose proof (sameOffSingleton_logged (HttpGet url) w1 w2 R) as R'.
  destruct R as (Hc & Hn & Ht). destruct Hagree as (_ & _ & _ & Hhttp & _).
  assert (Ho : ordinal w1 = ordinal w2) by (unfold ordinal; now rewrite Hc).
  unfold httpGet, logCall. rewrite Ho, Hhttp. cbn [fst snd].
  split; [reflexivity | exact R'].
Qed.

Lemma alike_timeNow : alike n (timeNow e1) (timeNow e2).
Proof.
  intros w1 w2 R. destruct Hagree as (_ & Hclock & _).
  assert (Ho : ordinal w1 = ordinal w2)
    by (unfold ordinal; now rewrite (proj1 R)).
  unfold timeNow. rewrite Ho, Hclock. destruct (clock e2 (ordinal w2)).
  split; [reflexivity | exact R].
Qed.

Lemma alike_putItem item :
  alike n (dynamoPutItem e1 cfg item) (dynamoPutItem e2 cfg item).
Proof.
  intros w1 w2 R.
  pose proof (sameOffSingleton_logged (PutItem (tableName cfg) item) w1 w2 R)
    as R'.
  destruct R as (Hc & Hn & Ht). destruct Hagree as (_ & _ & _ & _ & Hput).
  assert (Ho : ordinal w1 = ordinal w2) by (unfold ordinal; now rewrite Hc).
  unfold dynamoPutItem, logCall. cbn [table calls].
  rewrite (Hput (ordinal w1) item) by lia. rewrite Ho.
  destruct (putItemFails e2 (ordinal w2) item); cbn [fst snd];
    (split; [reflexivity |]); [exact R' |].
  destruct R' as (Hc' & Hn' & Ht'). cbn [calls table] in *.
  unfold sameOffSingleton, ordinal. cbn [calls table].
  split; [exact Hc' |]. split; [exact Hn' |].
  intros key Hkey. rewrite !lookup_insert. case_decide; [reflexivity | auto].
Qed.

Lemma alike_checkExisting baseCurrency date :
  date ≠ "-" →
  alike n (checkExistingExchangeRates e1 cfg baseCurrency date)
          (checkExistingExchangeRates e2 cfg baseCurrency date).
Proof.
  intros Hdate. unfold checkExistingExchangeRates, MarshalKey.
  apply alike_bind.
  - apply alike_getItem. unfold singletonKey. congruence.
  - intros [[item |] |]; try apply alike_ret.
    destruct (UnmarshalRates item); apply alike_ret.
Qed.

Lemma alike_fetch baseCurrency :
  alike n (fetchExchangeRates e1 cfg baseCurrency)
          (fetchExchangeRates e2 cfg baseCurrency).
Proof.
  unfold fetchExchangeRates.
  destruct (negb _); [apply alike_ret |].
  destruct (existsb _ _); [apply alike_ret |].
  apply alike_bind; [apply alike_httpGet |].
  intros [| status [| r]]; try apply alike_ret.
  - destruct (negb (status =? 200)); apply alike_ret.
  - destruct (negb (status =? 200)); [apply alike_ret |].
    destruct (_ && _); apply alike_ret.
Qed.

Lemma alike_store baseCurrency date rates :
  alike n (storeExchangeRates e1 cfg baseCurrency date rates)
          (storeExchangeRates e2 cfg baseCurrency date rates).
Proof.
  unfold storeExchangeRates, MarshalRates.
  apply alike_bind; [apply alike_timeNow |]. intros now.
  apply alike_bind; [apply alike_putItem |].
  intros [|]; apply alike_ret.
Qed.

Lemma alike_processCurrency date baseCurrency c :
  date ≠ "-" →
  alike n (processCurrency e1 cfg date baseCurrency c)
          (processCurrency e2 cfg date baseCurrency c).
Proof.
  intros Hdate. unfold processCurrency.
  apply alike_bind; [now apply alike_checkExisting |].
  intros [[existing |] | e]; try apply alike_ret.
  apply alike_bind; [apply alike_fetch |].
  intros [rates | e]; try apply alike_ret.
  apply alike_bind; [apply alike_store |].
  intros [e |]; apply alike_ret.
Qed.

Lemma alike_processAll date currencies :
  date ≠ "-" →
  ∀ c, alike n (processAll e1 cfg date currencies c)
               (processAll e2 cfg date currencies c).
Proof.
  intros Hdate.
  induction currencies as [| cur rest IH]; intros c; cbn [processAll].
  - apply alike_ret.
  - apply alike_bind; [now apply alike_processCurrency | apply IH].
Qed.

End Alike.

(** C7.  Take two environments that answer every call alike except,
    possibly, the write of the supported-currencies record, the first
    call [handler] makes, which may succeed in one and fail in the other.
    The counters, the value [handler] returns and the whole sequence of
    calls are the same in both, and the two tables end up equal under
    every key but that of the supported-currencies record. *)
Theorem supported_currencies_write_outcome_is_ignored
    (e1 e2 : Env) (cfg : Config) (w : World) :
  agreeExceptPut (ordinal w) e1 e2 →
  fst (handlerCounts e1 cfg w) = fst (handlerCounts e2 cfg w)
  ∧ fst (handler e1 cfg w) = fst (handler e2 cfg w)
  ∧ calls (snd (handler e1 cfg w)) = calls (snd (handler e2 cfg w))
  ∧ ∀ key, key ≠ singletonKey →
      table (snd (handler e1 cfg w)) !! key
      = table (snd (handler e2 cfg w)) !! key.
Proof.
  intros Hagree.
  assert (Hstart : sameOffSingleton (ordinal w)
                     (snd (storeSupportedCurrencies e1 cfg w))
                     (snd (storeSupportedCurrencies e2 cfg w))).
  { rewrite !storeSupported_unfold. cbv zeta.
    destruct Hagree as (_ & Hclock & _).
    unfold timeNow. rewrite Hclock.
    destruct (clock e2 (ordinal w)) as [s ns]. cbn [fst].
    unfold sameOffSingleton, ordinal.
    destruct (putItemFails e1 _ _), (putItemFails e2 _ _); cbn [snd calls table];
      (split; [reflexivity |]); (split; [rewrite length_app; cbn; lia |]);
      intros key Hkey; rewrite ?lookup_insert_ne by congruence; reflexivity. }
  pose proof (alike_processAll (ordinal w) e1 e2 cfg Hagree
                (formatDate (today e1)) (supportedCurrencies cfg)
                (formatDate_not_hyphen _) zeroCounters _ _ Hstart) as [Hc HR].
  unfold handler, handlerCounts, bind, ret.
  destruct Hagree as (Htoday & _). rewrite <- Htoday.
  destruct (storeSupportedCurrencies e1 cfg w) as [r1 w1].
  destruct (storeSupportedCurrencies e2 cfg w) as [r2 w2].
  cbn [snd] in Hc, HR.
  destruct (processAll e1 cfg _ _ zeroCounters w1) as [c1 w1'].
  destruct (processAll e2 cfg _ _ zeroCounters w2) as [c2 w2'].
  cbn [fst snd] in *. subst c2.
  destruct HR as (Hcalls & _ & Htable).
  repeat split; assumption.
Qed.

Lemma supported_currencies_write_outcome_is_ignored_witness :
  fst (storeSupportedCurrencies noFaultEnv publicConfig emptyWorld) = None
  ∧ fst (storeSupportedCurrencies firstPutFaultEnv publicConfig emptyWorld)
    = Some ErrStoreSupported
  ∧ fst (handlerCounts noFaultEnv publicConfig emptyWorld)
    = fst (handlerCounts firstPutFaultEnv publicConfig emptyWorld).
Proof.
  split; [reflexivity |]. split; [reflexivity |].
  apply (supported_currencies_write_outcome_is_ignored
           noFaultEnv firstPutFaultEnv publicConfig emptyWorld).
  repeat split; try reflexivity.
  intros k item Hk. destruct k; [contradiction | reflexivity].
Defined.

(** ** The configured currency list (C9) *)

Lemma Join_push sep a seg rest :
  Join sep (String a seg :: rest) = String a (Join sep (seg :: rest)).
Proof. now destruct rest. Qed.

(** [Split] cuts at every separator. *)
Lemma Split_is_split sep s : IsSplitOf sep s (Split s sep).
Proof.
  unfold IsSplitOf. induction s as [| c s (Hne & Hall & Hjoin)].
  - cbn. repeat split; [discriminate | now constructor].
  - cbn [Split]. destruct (Ascii.eqb_spec c sep) as [-> | Hc].
    + split; [discriminate |]. split; [now constructor |].
      destruct (Split s sep) as [| seg segs]; [contradiction |].
      change (Join sep (EmptyString :: seg :: segs))
        with (String sep (Join sep (seg :: segs))).
      now rewrite Hjoin.
    + destruct (Split s sep) as [| seg segs]; [contradiction |].
      split; [discriminate |]. split.
      * inversion Hall as [| ? ? Hseg Hsegs]; subst. constructor; [| assumption].
        cbn [contains]. rewrite Hseg.
        now destruct (Ascii.eqb_spec c sep).
      * rewrite Join_push. now rewrite Hjoin.
Qed.

(** And it is the only list that does. *)
Lemma Split_unique sep : ∀ s l, IsSplitOf sep s l → l = Split s sep.
Proof.
  unfold IsSplitOf.
  induction s as [| c s IH]; intros [| x rest] (Hne & Hall & Hjoin);
    try contradiction.
  - destruct rest as [| y rest]; cbn [Join] in Hjoin; [now subst |].
    destruct x; discriminate Hjoin.
  - inversion Hall as [| ? ? Hx Hrest]; subst.
    destruct x as [| a x].
    + destruct rest as [| y rest]; [discriminate Hjoin |].
      change (Join sep (EmptyString :: y :: rest))
        with (String sep (Join sep (y :: rest))) in Hjoin.
      injection Hjoin as -> Hs.
      cbn [Split]. rewrite Ascii.eqb_refl. f_equal.
      apply IH. split; [discriminate |]. now split.
    + rewrite Join_push in Hjoin. injection Hjoin as -> Hs.
      cbn [contains] in Hx. apply orb_false_iff in Hx as [Ha Hx].
      cbn [Split]. rewrite Ha.
      rewrite <- (IH (x :: rest)); [reflexivity |].
      split; [discriminate |]. split; [now constructor | assumption].
Qed.

(** C9.  [init] takes the currency list from SUPPORTED_CURRENCIES: when
    the variable is empty or unset the list is the default one, which has
    thirteen codes; otherwise it is the value cut at every pipe
    character, segments in their order, and no other list is such a
    cut. *)
Theorem currency_list_is_default_or_split (getenv : string → string) :
  let s := getenv "SUPPORTED_CURRENCIES" in
  supportedCurrencies <$> init getenv false
  = (if bool_decide (getenv "EXCHANGE_RATE_DB_NAME" = EmptyString) then None
     else Some (parseSupportedCurrencies s))
  ∧ if bool_decide (s = EmptyString)
    then parseSupportedCurrencies s = defaultCurrencies
         ∧ length defaultCurrencies = 13%nat
    else parseSupportedCurrencies s = Split s "|"
         ∧ IsSplitOf "|" s (parseSupportedCurrencies s)
         ∧ ∀ l, IsSplitOf "|" s l → l = parseSupportedCurrencies s.
Proof.
  cbv zeta. split.
  - unfold init. now case_bool_decide.
  - unfold parseSupportedCurrencies.
    repeat case_bool_decide; try contradiction.
    + split; reflexivity.
    + split; [reflexivity |]. split; [apply Split_is_split |].
      apply Split_unique.
Qed.

(** * Further properties of the code *)

(** ** fetchExchangeRates *)

(** [fetchExchangeRates] stopped by its validation. *)
Lemma fetch_invalid_unfold env cfg baseCurrency w :
  validCurrencyCode baseCurrency = false →
  ∃ e, fetchExchangeRates env cfg baseCurrency w = (Err e, w)
       ∧ isValidationError e = true.
Proof.
  intros Hinvalid.
  pose proof (ValidationFacts.guards_spec baseCurrency) as G.
  rewrite Hinvalid in G. cbn [negb] in G.
  unfold fetchExchangeRates.
  destruct (negb (GoString.len baseCurrency =? 3)).
  - exists ErrBaseCurrencyLength. now split.
  - cbn [orb] in G. rewrite G. exists ErrBaseCurrencyUppercase. now split.
Qed.

(** X1.  [fetchExchangeRates] returns a response exactly when the code is
    three uppercase letters, the request is answered with status 200 and
    a body that decodes, and the result field of the body is empty or
    "success"; the response returned is the decoded body itself. *)
Theorem fetch_succeeds_exactly_when
    (env : Env) (cfg : Config) (baseCurrency : string) (w : World)
    (r : ExchangeRateResponse) :
  fst (fetchExchangeRates env cfg baseCurrency w) = Ok r
  ↔ validCurrencyCode baseCurrency = true
    ∧ httpResponse env (ordinal w) (rateUrl cfg baseCurrency)
      = Response 200 (Decodes r)
    ∧ (Result r = EmptyString ∨ Result r = "success").
Proof.
  destruct (validCurrencyCode baseCurrency) eqn:Hvalid.
  - rewrite fetch_valid_unfold by assumption. cbn [fst].
    destruct (httpResponse env (ordinal w) (rateUrl cfg baseCurrency))
      as [| status [| r']].
    + split; [discriminate | intros (_ & H & _); discriminate].
    + destruct (Z.eqb_spec status 200) as [-> | Hs]; cbn [negb];
        (split; [discriminate | intros (_ & H & _); congruence]).
    + destruct (Z.eqb_spec status 200) as [-> | Hs]; cbn [negb].
      * repeat case_bool_decide; cbn [andb]; split;
          try (intros [= ->]; repeat split; tauto);
          try discriminate;
          try (intros (_ & [= ->] & Hr); tauto || reflexivity).
        all: intros (_ & [= ->] & [Hr | Hr]); congruence.
      * split; [discriminate | intros (_ & H & _); congruence].
  - destruct (fetch_invalid_unfold env cfg baseCurrency w Hvalid)
      as (e & -> & _).
    split; [discriminate | intros (H & _); discriminate].
Qed.

(** X2.  [fetchExchangeRates] leaves the table alone and makes at most one
    outside call, the http.Get for the address of the currency; what it
    returns does not depend on the content of the table. *)
Theorem fetch_touches_nothing_but_the_network
    (env : Env) (cfg : Config) (baseCurrency : string) (w : World) :
  let w' := snd (fetchExchangeRates env cfg baseCurrency w) in
  table w' = table w
  ∧ (calls w' = calls w
     ∨ calls w' = calls w ++ [HttpGet (rateUrl cfg baseCurrency)])
  ∧ ∀ t, fst (fetchExchangeRates env cfg baseCurrency
                 {| table := t; calls := calls w |})
         = fst (fetchExchangeRates env cfg baseCurrency w).
Proof.
  cbv zeta. split; [| split].
  - now destruct (fetch_world env cfg baseCurrency w) as [-> | ->].
  - destruct (fetch_world env cfg baseCurrency w) as [-> | ->];
      [now left | now right].
  - intros t. destruct (validCurrencyCode baseCurrency) eqn:Hvalid.
    + now rewrite !fetch_valid_unfold by assumption.
    + unfold fetchExchangeRates.
      pose proof (ValidationFacts.guards_spec baseCurrency) as G.
      rewrite Hvalid in G. cbn [negb] in G.
      destruct (negb (GoString.len baseCurrency =? 3)); [reflexivity |].
      cbn [orb] in G. now rewrite G.
Qed.

(** X3.  The address requested determines the currency: two base
    currencies are requested at the same address only if they are the
    same, with and without an API key. *)
Theorem request_address_identifies_currency
    (cfg : Config) (a b : string) :
  rateUrl cfg a = rateUrl cfg b ↔ a = b.
Proof. split; [apply rateUrl_inj | now intros ->]. Qed.

(** ** The store adapter *)

(** X4.  [checkExistingExchangeRates] makes one call, the GetItem for the
    key, and never changes the table.  It reports "no record" (nil, nil)
    exactly when the lookup does not fail and the table has nothing under
    the key, and it returns a record exactly when the lookup does not
    fail and the item under the key decodes to that record; a failed
    lookup or an item that does not decode is an error. *)
Theorem lookup_tells_absent_from_failed
    (env : Env) (cfg : Config) (baseCurrency date : string) (w : World) :
  let res := fst (checkExistingExchangeRates env cfg baseCurrency date w) in
  let w' := snd (checkExistingExchangeRates env cfg baseCurrency date w) in
  let fails := getItemFails env (ordinal w) (baseCurrency, date) in
  table w' = table w
  ∧ calls w' = calls w ++ [GetItem (tableName cfg) (baseCurrency, date)]
  ∧ (res = Ok None
     ↔ fails = false ∧ table w !! (baseCurrency, date) = None)
  ∧ (∀ r, res = Ok (Some r)
          ↔ fails = false
            ∧ ∃ item, table w !! (baseCurrency, date) = Some item
                      ∧ UnmarshalRates item = Some r)
  ∧ ((∃ e, res = Err e)
     ↔ fails = true
       ∨ ∃ item, table w !! (baseCurrency, date) = Some item
                 ∧ UnmarshalRates item = None).
Proof.
  cbv zeta. rewrite checkExisting_unfold. unfold logged. cbn [fst snd table calls].
  split; [reflexivity |]. split; [reflexivity |].
  destruct (getItemFails env (ordinal w) (baseCurrency, date));
    [| destruct (table w !! (baseCurrency, date)) as [item |];
       [destruct (UnmarshalRates item) as [rec |] eqn:Hdec |]];
    repeat split; intros;
    repeat match goal with
           | H : ∃ _, _ |- _ => destruct H
           | H : _ ∧ _ |- _ => destruct H
           | H : _ ∨ _ |- _ => destruct H
           end;
    simplify_eq; eauto.
Qed.

(** X5.  [storeExchangeRates] makes one call, a PutItem of a record keyed
    by the currency and the date and holding the rates it was given.
    Either it returns nil and the table holds an item under that key, or
    it returns its storing error and the table is as it was; under every
    other key the table is unchanged in both cases. *)
Theorem store_changes_one_key_or_nothing
    (env : Env) (cfg : Config) (baseCurrency date : string)
    (rates : ExchangeRateResponse) (w : World) :
  let err := fst (storeExchangeRates env cfg baseCurrency date rates w) in
  let w' := snd (storeExchangeRates env cfg baseCurrency date rates w) in
  (∃ r, calls w' = calls w ++ [PutItem (tableName cfg) (RatesItem r)]
        ∧ Key r = baseCurrency ∧ SortKey r = date
        ∧ ExchangeRates r = ConversionRates rates)
  ∧ (err = None ∧ table w' !! (baseCurrency, date) ≠ None
     ∨ err = Some (ErrStoreRates baseCurrency) ∧ table w' = table w)
  ∧ (∀ key, (baseCurrency, date) ≠ key → table w' !! key = table w !! key).
Proof.
  cbv zeta. rewrite store_unfold. cbv zeta.
  destruct (putItemFails env (ordinal w) _); unfold logged;
    cbn [fst snd table calls].
  - split; [eexists; split; [reflexivity | now cbn] |].
    split; [now right | reflexivity].
  - split; [eexists; split; [reflexivity | now cbn] |].
    split; [left; split; [reflexivity | now rewrite lookup_insert_eq] |].
    intros key. apply lookup_insert_ne.
Qed.

(** X6.  The last write wins: after two writes for the same currency and
    date that both succeed, a lookup that does not fail returns the
    mapping of the second write, stamped with the time of the second
    write, whatever the table held before. *)
Theorem second_write_replaces_first
    (env : Env) (cfg : Config) (baseCurrency date : string)
    (rates1 rates2 : ExchangeRateResponse) (w w1 w2 : World) :
  storeExchangeRates env cfg baseCurrency date rates1 w = (None, w1) →
  storeExchangeRates env cfg baseCurrency date rates2 w1 = (None, w2) →
  getItemFails env (ordinal w2) (baseCurrency, date) = false →
  fst (checkExistingExchangeRates env cfg baseCurrency date w2)
  = Ok (Some {| Key := baseCurrency; SortKey := date;
                ExchangeRates := ConversionRates rates2;
                UpdatedAt := fst (timeNow env w1) |}).
Proof.
  intros H1 H2 Hget.
  rewrite store_unfold in H2. cbv zeta in H2.
  destruct (putItemFails env (ordinal w1) _); [discriminate |].
  injection H2 as <-.
  rewrite checkExisting_unfold. cbn [fst table] in *. rewrite Hget.
  now rewrite lookup_insert_eq.
Qed.

Lemma second_write_replaces_first_witness :
  fst (checkExistingExchangeRates noFaultEnv publicConfig "EUR"
         (formatDate aDate)
         (snd (storeExchangeRates noFaultEnv publicConfig "EUR"
                 (formatDate aDate) errorResultResponse
                 (snd (storeExchangeRates noFaultEnv publicConfig "EUR"
                         (formatDate aDate) eurResponse emptyWorld)))))
  = Ok (Some {| Key := "EUR"; SortKey := formatDate aDate;
                ExchangeRates := ConversionRates errorResultResponse;
                UpdatedAt :=
                  fst (timeNow noFaultEnv
                         (snd (storeExchangeRates noFaultEnv publicConfig
                                 "EUR" (formatDate aDate) eurResponse
                                 emptyWorld))) |}).
Proof.
  apply (second_write_replaces_first noFaultEnv publicConfig "EUR"
           (formatDate aDate) eurResponse errorResultResponse emptyWorld
           (snd (storeExchangeRates noFaultEnv publicConfig "EUR"
                   (formatDate aDate) eurResponse emptyWorld))
           (snd (storeExchangeRates noFaultEnv publicConfig "EUR"
                   (formatDate aDate) errorResultResponse
                   (snd (storeExchangeRates noFaultEnv publicConfig "EUR"
                           (formatDate aDate) eurResponse emptyWorld)))));
    reflexivity.
Defined.

(** ** One iteration, in full *)

(** What an iteration does, by cases: it stops after the lookup, or after
    the request, or goes on to the write. *)
Lemma processCurrency_shape env cfg date baseCurrency c w :
  let key := (baseCurrency, date) in
  let w' := snd (processCurrency env cfg date baseCurrency c w) in
  let o := stepOutcome env cfg date baseCurrency w in
  let get := GetItem (tableName cfg) key in
  let req := HttpGet (rateUrl cfg baseCurrency) in
  (o ≠ Succeeded ∧ table w' = table w ∧ calls w' = calls w ++ [get]
   ∧ (o = Skipped →
      getItemFails env (ordinal w) key = false
      ∧ ∃ item r, table w !! key = Some item ∧ UnmarshalRates item = Some r))
  ∨ (validCurrencyCode baseCurrency = true
     ∧ getItemFails env (ordinal w) key = false
     ∧ table w !! key = None
     ∧ ((o = Errored ∧ table w' = table w ∧ calls w' = calls w ++ [get; req])
        ∨ ∃ r,
            Key r = baseCurrency ∧ SortKey r = date
            ∧ calls w' = calls w ++ [get; req; PutItem (tableName cfg) (RatesItem r)]
            ∧ ((o = Errored ∧ table w' = table w)
               ∨ (o = Succeeded
                  ∧ table w' = <[key := RatesItem r]> (table w))))).
Proof.
  cbv zeta. unfold processCurrency, stepOutcome, bind, ret.
  rewrite checkExisting_unfold. unfold logged.
  destruct (getItemFails env (ordinal w) (baseCurrency, date)) eqn:Hget.
  { left. cbn [snd table calls]. repeat split; congruence. }
  destruct (table w !! (baseCurrency, date)) as [item |] eqn:Hitem.
  { left. destruct (UnmarshalRates item) as [r |] eqn:Hdec;
      cbn [snd table calls]; repeat split; try congruence; eauto. }
  destruct (validCurrencyCode baseCurrency) eqn:Hvalid.
  2:{ left.
      destruct (fetch_invalid_unfold env cfg baseCurrency
                  {| table := table w;
                     calls := calls w
                              ++ [GetItem (tableName cfg) (baseCurrency, date)] |}
                  Hvalid) as (e & -> & _).
      cbn [snd table calls]. repeat split; congruence. }
  right. split; [reflexivity |]. split; [reflexivity |]. split; [reflexivity |].
  rewrite fetch_valid_unfold by assumption.
  set (resp := httpResponse env _ _).
  assert (Hcalls : ∀ l : list Call,
            (calls w ++ [GetItem (tableName cfg) (baseCurrency, date)]) ++ l
            = calls w ++ GetItem (tableName cfg) (baseCurrency, date) :: l)
    by (intros l; now rewrite <- app_assoc).
  destruct resp as [| status [| r]].
  - left. cbn [snd table calls]. now rewrite Hcalls.
  - left. destruct (negb (status =? 200)); cbn [snd table calls];
      now rewrite Hcalls.
  - destruct (negb (status =? 200)).
    { left. cbn [snd table calls]. now rewrite Hcalls. }
    destruct (_ && _).
    { left. cbn [snd table calls]. now rewrite Hcalls. }
    right. rewrite store_unfold. cbv zeta. unfold logged.
    eexists (stamped env baseCurrency date r _).
    split; [reflexivity |]. split; [reflexivity |].
    destruct (putItemFails env _ _); cbn [snd table calls];
      rewrite <- app_assoc, Hcalls; (split; [reflexivity |]);
      [left | right]; now split.
Qed.

(** X7.  A configured entry that is not three uppercase letters never
    succeeds: its iteration makes the lookup and nothing else, neither a
    request nor a write, leaves the table as it was, and counts as an
    error or, when an item is found under its key, as a skip. *)
Theorem malformed_code_never_reaches_the_provider
    (env : Env) (cfg : Config) (date baseCurrency : string) (c : Counters)
    (w : World) :
  validCurrencyCode baseCurrency = false →
  let w' := snd (processCurrency env cfg date baseCurrency c w) in
  stepOutcome env cfg date baseCurrency w ≠ Succeeded
  ∧ calls w' = calls w ++ [GetItem (tableName cfg) (baseCurrency, date)]
  ∧ table w' = table w.
Proof.
  intros Hinvalid. cbv zeta.
  destruct (processCurrency_shape env cfg date baseCurrency c w)
    as [(Ho & Ht & Hc & _) | (Hvalid & _)]; [now repeat split | congruence].
Qed.

Lemma malformed_code_never_reaches_the_provider_witness :
  validCurrencyCode "eur" = false
  ∧ stepOutcome noFaultEnv publicConfig (formatDate aDate) "eur" emptyWorld
    ≠ Succeeded.
Proof.
  split; [reflexivity |].
  apply (malformed_code_never_reaches_the_provider noFaultEnv publicConfig
           (formatDate aDate) "eur" zeroCounters emptyWorld).
  reflexivity.
Defined.

(** ** The loop and the table *)

Lemma processCurrency_table env cfg date baseCurrency c w :
  let w' := snd (processCurrency env cfg date baseCurrency c w) in
  let o := stepOutcome env cfg date baseCurrency w in
  (o ≠ Succeeded ∧ table w' = table w)
  ∨ (o = Succeeded ∧ table w !! (baseCurrency, date) = None
     ∧ ∃ r, table w' = <[(baseCurrency, date) := RatesItem r]> (table w)).
Proof.
  cbv zeta.
  destruct (processCurrency_shape env cfg date baseCurrency c w)
    as [(Ho & Ht & _) | (_ & _ & Hnone & [(Ho & Ht & _) | (r & _ & _ & _ & [(Ho & Ht) | (Ho & Ht)])])].
  - now left.
  - left. split; [congruence | assumption].
  - left. split; [congruence | assumption].
  - right. eauto.
Qed.

(** The world the loop leaves does not depend on the counters. *)
Lemma processAll_world env cfg date currencies : ∀ c1 c2 w,
  snd (processAll env cfg date currencies c1 w)
  = snd (processAll env cfg date currencies c2 w).
Proof.
  induction currencies as [| cur rest IH]; intros c1 c2 w; [reflexivity |].
  cbn [processAll]. unfold bind.
  rewrite (processCurrency_bump env cfg date cur c1 w),
          (processCurrency_bump env cfg date cur c2 w).
  apply IH.
Qed.

Lemma processAll_cons env cfg date cur rest c w :
  snd (processAll env cfg date (cur :: rest) c w)
  = snd (processAll env cfg date rest c
           (snd (processCurrency env cfg date cur zeroCounters w))).
Proof.
  cbn [processAll]. unfold bind. rewrite processCurrency_bump.
  apply processAll_world.
Qed.

Lemma loop_keeps_items_helper env cfg date currencies : ∀ c w,
  table w ⊆ table (snd (processAll env cfg date currencies c w)).
Proof.
  induction currencies as [| cur rest IH]; intros c w; [reflexivity |].
  rewrite processAll_cons.
  etransitivity; [| apply IH].
  destruct (processCurrency_table env cfg date cur zeroCounters w)
    as [(_ & ->) | (_ & Hnone & r & ->)]; [reflexivity |].
  now apply insert_subseteq.
Qed.

(** X8.  The loop never overwrites: every item the table held before the
    loop is still there, unchanged, after it, whatever the environment
    answers. *)
Theorem loop_keeps_every_existing_item
    (env : Env) (cfg : Config) (date : string) (currencies : list string)
    (c : Counters) (w : World) :
  table w ⊆ table (snd (processAll env cfg date currencies c w)).
Proof. apply loop_keeps_items_helper. Qed.

(** X9.  The table grows by exactly one item per success: the number of
    items after the loop is the number before it plus the increase of the
    success counter. *)
Theorem every_success_adds_one_item
    (env : Env) (cfg : Config) (date : string) (currencies : list string)
    (c : Counters) (w : World) :
  let c' := fst (processAll env cfg date currencies c w) in
  let w' := snd (processAll env cfg date currencies c w) in
  Z.of_nat (size (table w'))
  = Z.of_nat (size (table w)) + (successCount c' - successCount c).
Proof.
  cbv zeta.
  pose proof (processAll_spec env cfg date currencies c w) as H.
  destruct (processAll env cfg date currencies c w) as [c' w'] eqn:E.
  cbn [fst snd]. destruct H as (_ & Hs & _). rewrite Hs.
  replace w' with (snd (processAll env cfg date currencies c w))
    by now rewrite E.
  clear E Hs c'. revert c w.
  induction currencies as [| cur rest IH]; intros c w.
  - cbn. unfold countOf. cbn. lia.
  - rewrite processAll_cons. cbn [outcomes]. rewrite countOf_cons.
    rewrite IH.
    destruct (processCurrency_table env cfg date cur zeroCounters w)
      as [(Ho & ->) | (-> & Hnone & r & ->)].
    + case_decide; [congruence | lia].
    + rewrite map_size_insert_None by assumption.
      case_decide; [lia | congruence].
Qed.

(** ** The calls of the loop *)

Lemma httpUrls_app l1 l2 : httpUrls (l1 ++ l2) = httpUrls l1 ++ httpUrls l2.
Proof. apply omap_app. Qed.

Lemma putItems_app l1 l2 : putItems (l1 ++ l2) = putItems l1 ++ putItems l2.
Proof. apply omap_app. Qed.

(** The calls one iteration adds to the log. *)
Lemma processCurrency_new_calls env cfg date baseCurrency c w :
  ∃ rest,
    calls (snd (processCurrency env cfg date baseCurrency c w))
    = calls w ++ rest
    ∧ (1 ≤ length rest ≤ 3)%nat
    ∧ (length (putItems rest) ≤ length (httpUrls rest))%nat
    ∧ (httpUrls rest = []
       ∨ validCurrencyCode baseCurrency = true
         ∧ httpUrls rest = [rateUrl cfg baseCurrency])
    ∧ Forall (λ item, ∃ r, item = RatesItem r ∧ SortKey r = date
                           ∧ Key r = baseCurrency
                           ∧ validCurrencyCode (Key r) = true)
        (putItems rest).
Proof.
  destruct (processCurrency_shape env cfg date baseCurrency c w)
    as [(_ & _ & Hc & _)
       | (Hvalid & _ & _ & [(_ & _ & Hc) | (r & Hk & Hs & Hc & _)])];
    eexists; (split; [exact Hc |]); cbn; (split; [lia |]);
    (split; [lia |]).
  - split; [now left | constructor].
  - split; [now right | constructor].
  - split; [now right |]. repeat constructor.
    exists r. rewrite Hk. now repeat split.
Qed.

(** The calls the loop adds to the log. *)
Lemma processAll_new_calls env cfg date currencies : ∀ c w,
  ∃ rest,
    calls (snd (processAll env cfg date currencies c w)) = calls w ++ rest
    ∧ (length currencies ≤ length rest ≤ 3 * length currencies)%nat
    ∧ (length (putItems rest) ≤ length (httpUrls rest))%nat
    ∧ sublist (httpUrls rest)
        (List.map (rateUrl cfg) (List.filter validCurrencyCode currencies))
    ∧ Forall (λ item, ∃ r, item = RatesItem r ∧ SortKey r = date
                           ∧ Key r ∈ currencies
                           ∧ validCurrencyCode (Key r) = true)
        (putItems rest).
Proof.
  induction currencies as [| cur rest IH]; intros c w.
  - exists []. cbn. rewrite app_nil_r.
    repeat split; try lia; constructor.
  - rewrite processAll_cons.
    destruct (processCurrency_new_calls env cfg date cur zeroCounters w)
      as (r1 & Hc1 & Hlen1 & Hput1 & Hurl1 & Hall1).
    destruct (IH c (snd (processCurrency env cfg date cur zeroCounters w)))
      as (r2 & Hc2 & Hlen2 & Hput2 & Hurl2 & Hall2).
    exists (r1 ++ r2).
    rewrite Hc2, Hc1, <- app_assoc, httpUrls_app, putItems_app, !length_app.
    split; [reflexivity |]. cbn [length]. split; [lia |]. split; [lia |].
    split.
    + cbn [List.filter].
      destruct Hurl1 as [-> | (Hvalid & ->)].
      * destruct (validCurrencyCode cur); cbn [app List.map];
          [now apply sublist_cons | assumption].
      * rewrite Hvalid. cbn [app List.map]. now apply sublist_skip.
    + apply Forall_app. split.
      * eapply Forall_impl; [exact Hall1 |].
        intros item (r & -> & Hs & Hk & Hv). exists r.
        repeat split; try assumption. rewrite Hk. apply list_elem_of_here.
      * eapply Forall_impl; [exact Hall2 |].
        intros item (r & -> & Hs & Hk & Hv). exists r.
        repeat split; try assumption. now apply list_elem_of_further.
Qed.

(** X10.  The loop makes at least one and at most three outside calls per
    configured entry, and its requests go, in list order and at most once
    per entry, to the addresses of the entries that are three uppercase
    letters: no other address is ever requested. *)
Theorem loop_requests_only_well_formed_codes
    (env : Env) (cfg : Config) (date : string) (currencies : list string)
    (c : Counters) (w : World) :
  ∃ rest,
    calls (snd (processAll env cfg date currencies c w)) = calls w ++ rest
    ∧ (length currencies ≤ length rest ≤ 3 * length currencies)%nat
    ∧ sublist (httpUrls rest)
        (List.map (rateUrl cfg) (List.filter validCurrencyCode currencies)).
Proof.
  destruct (processAll_new_calls env cfg date currencies c w)
    as (rest & Hc & Hlen & _ & Hsub & _).
  exists rest. now repeat split.
Qed.

(** X11.  Whatever the loop hands to PutItem is an exchange-rate record
    for the date of the run and for a configured entry of three uppercase
    letters, and it attempts no more writes than it made requests. *)
Theorem loop_writes_only_rate_records_of_the_day
    (env : Env) (cfg : Config) (date : string) (currencies : list string)
    (c : Counters) (w : World) :
  ∃ rest,
    calls (snd (processAll env cfg date currencies c w)) = calls w ++ rest
    ∧ (length (putItems rest) ≤ length (httpUrls rest))%nat
    ∧ Forall (λ item, ∃ r, item = RatesItem r ∧ SortKey r = date
                           ∧ Key r ∈ currencies
                           ∧ validCurrencyCode (Key r) = true)
        (putItems rest).
Proof.
  destruct (processAll_new_calls env cfg date currencies c w)
    as (rest & Hc & _ & Hput & _ & Hall).
  exists rest. now repeat split.
Qed.

(** ** Running the loop again *)

(** An iteration that did not end in an error leaves, under its key, an
    item that decodes. *)
Lemma processCurrency_leaves_item env cfg date baseCurrency c w :
  stepOutcome env cfg date baseCurrency w ≠ Errored →
  ∃ item r,
    table (snd (processCurrency env cfg date baseCurrency c w))
      !! (baseCurrency, date) = Some item
    ∧ UnmarshalRates item = Some r.
Proof.
  intros Ho.
  destruct (processCurrency_shape env cfg date baseCurrency c w)
    as [(Hns & Ht & _ & Hskip)
       | (_ & _ & _ & [(He & _) | (r & _ & _ & _ & [(He & _) | (_ & Ht)])])];
    try congruence.
  - destruct (stepOutcome env cfg date baseCurrency w); try congruence.
    destruct (Hskip eq_refl) as (_ & item & r & Hitem & Hdec).
    exists item, r. now rewrite Ht.
  - exists (RatesItem r), r. rewrite Ht. now rewrite lookup_insert_eq.
Qed.

(** An iteration whose lookup does not fail and finds an item that
    decodes is a skip. *)
Lemma processCurrency_skips_held env cfg date baseCurrency w item r :
  table w !! (baseCurrency, date) = Some item →
  UnmarshalRates item = Some r →
  getItemFails env (ordinal w) (baseCurrency, date) = false →
  stepOutcome env cfg date baseCurrency w = Skipped.
Proof.
  intros Hitem Hdec Hget. unfold stepOutcome.
  rewrite checkExisting_unfold, Hget, Hitem, Hdec. reflexivity.
Qed.

Lemma processCurrency_keeps_items env cfg date baseCurrency c w :
  table w ⊆ table (snd (processCurrency env cfg date baseCurrency c w)).
Proof.
  destruct (processCurrency_table env cfg date baseCurrency c w)
    as [(_ & ->) | (_ & Hnone & r & ->)]; [reflexivity |].
  now apply insert_subseteq.
Qed.

Lemma second_pass_skips env1 env2 cfg date currencies :
  (∀ k key, getItemFails env2 k key = false) →
  ∀ c w u,
    table (snd (processAll env1 cfg date currencies c w)) ⊆ table u →
    Forall2 (λ o1 o2, o1 ≠ Errored → o2 = Skipped)
      (outcomes env1 cfg date currencies w)
      (outcomes env2 cfg date currencies u).
Proof.
  intros Hget.
  induction currencies as [| cur rest IH]; intros c w u Hsub;
    [constructor |].
  cbn [outcomes]. rewrite processAll_cons in Hsub. constructor.
  - intros Ho.
    destruct (processCurrency_leaves_item env1 cfg date cur zeroCounters w Ho)
      as (item & r & Hitem & Hdec).
    eapply processCurrency_skips_held; [| exact Hdec | apply Hget].
    eapply lookup_weaken; [| exact Hsub].
    eapply lookup_weaken; [exact Hitem |].
    apply loop_keeps_items_helper.
  - apply (IH c). etransitivity; [exact Hsub |].
    apply processCurrency_keeps_items.
Qed.

Lemma countOf_nonneg o l : 0 ≤ countOf o l.
Proof. unfold countOf. lia. Qed.

Lemma countOf_zero o l : countOf o l = 0 ↔ Forall (λ x, x ≠ o) l.
Proof.
  induction l as [| x l IH].
  - split; [constructor | reflexivity].
  - rewrite countOf_cons. pose proof (countOf_nonneg o l).
    split.
    + intros H0. case_decide; [lia |].
      constructor; [assumption | apply IH; lia].
    + intros HF. inversion HF as [| ? ? Hx Hl]; subst.
      case_decide; [congruence |]. apply IH in Hl. lia.
Qed.

(** X12.  Run the loop a second time over the same list and date, from
    the table the first run left, in an environment whose lookups do not
    fail: every entry whose first iteration did not end in an error is a
    skip.  If the first run had no error at all, the second run skips
    every entry. *)
Theorem second_run_skips_what_the_first_settled
    (env1 env2 : Env) (cfg : Config) (date : string)
    (currencies : list string) (c : Counters) (w : World) :
  (∀ k key, getItemFails env2 k key = false) →
  let os1 := outcomes env1 cfg date currencies w in
  let os2 := outcomes env2 cfg date currencies
               (snd (processAll env1 cfg date currencies c w)) in
  Forall2 (λ o1 o2, o1 ≠ Errored → o2 = Skipped) os1 os2
  ∧ (countOf Errored os1 = 0 → Forall (λ o, o = Skipped) os2).
Proof.
  intros Hget. cbv zeta.
  pose proof (second_pass_skips env1 env2 cfg date currencies Hget c w
                (snd (processAll env1 cfg date currencies c w))
                (reflexivity _)) as HF.
  split; [exact HF |].
  intros H0. apply countOf_zero in H0.
  induction HF as [| o1 o2 l1 l2 Ho HF IH]; [constructor |].
  inversion H0; subst. constructor; [now apply Ho | now apply IH].
Qed.

Lemma second_run_skips_what_the_first_settled_witness :
  outcomes noFaultEnv publicConfig (formatDate aDate) ["EUR"] emptyWorld
  = [Succeeded]
  ∧ Forall2 (λ o1 o2, o1 ≠ Errored → o2 = Skipped)
      (outcomes noFaultEnv publicConfig (formatDate aDate) ["EUR"] emptyWorld)
      (outcomes noFaultEnv publicConfig (formatDate aDate) ["EUR"]
         (snd (processAll noFaultEnv publicConfig (formatDate aDate) ["EUR"]
                 zeroCounters emptyWorld))).
Proof.
  split; [reflexivity |].
  apply (second_run_skips_what_the_first_settled noFaultEnv noFaultEnv
           publicConfig (formatDate aDate) ["EUR"] zeroCounters emptyWorld).
  reflexivity.
Defined.

(** ** The whole invocation *)

(** X13.  [handler] returns an error exactly when at least one currency
    is configured and every iteration of the loop ended in an error. *)
Theorem handler_fails_iff_every_entry_errored
    (env : Env) (cfg : Config) (w : World) :
  let os := outcomes env cfg (formatDate (today env))
              (supportedCurrencies cfg)
              (snd (storeSupportedCurrencies env cfg w)) in
  fst (handler env cfg w) ≠ None
  ↔ supportedCurrencies cfg ≠ [] ∧ Forall (λ o, o = Errored) os.
Proof.
  cbv zeta. unfold handler, handlerCounts, bind, ret.
  destruct (storeSupportedCurrencies env cfg w) as [r w1]. cbn [snd].
  pose proof (processAll_spec env cfg (formatDate (today env))
                (supportedCurrencies cfg) zeroCounters w1) as H.
  destruct (processAll env cfg _ _ zeroCounters w1) as [c w'].
  destruct H as (_ & Hs & He & Hk). cbn [fst].
  cbn [zeroCounters successCount errorCount skippedCount] in Hs, He, Hk.
  set (os := outcomes env cfg (formatDate (today env))
               (supportedCurrencies cfg) w1) in *.
  pose proof (countOf_total os) as T.
  pose proof (outcomes_length env cfg (formatDate (today env))
                (supportedCurrencies cfg) w1) as L. fold os in L.
  pose proof (countOf_zero Succeeded os) as ZS.
  pose proof (countOf_zero Skipped os) as ZK.
  pose proof (countOf_nonneg Succeeded os).
  pose proof (countOf_nonneg Skipped os).
  destruct (classify_spec c) as [(-> & Hpos & Hs0 & Hk0) | (-> & Hneg)].
  - split; [intros _ | discriminate].
    split.
    + intros Hnil. rewrite Hnil in L. cbn in L. lia.
    + assert (F1 : Forall (λ x, x ≠ Succeeded) os) by (apply ZS; lia).
      assert (F2 : Forall (λ x, x ≠ Skipped) os) by (apply ZK; lia).
      clear -F1 F2. induction os as [| o os IH]; [constructor |].
      inversion F1; inversion F2; subst. constructor; [| now apply IH].
      now destruct o.
  - split; [congruence |]. intros (Hne & HF). exfalso. apply Hneg.
    assert (F1 : Forall (λ x, x ≠ Succeeded) os)
      by (eapply Forall_impl; [exact HF | now intros o ->]).
    assert (F2 : Forall (λ x, x ≠ Skipped) os)
      by (eapply Forall_impl; [exact HF | now intros o ->]).
    apply ZS in F1. apply ZK in F2.
    destruct (supportedCurrencies cfg) as [| cur rest]; [congruence |].
    cbn [length] in L. lia.
Qed.

(** The loop changes the table only under keys made of a configured
    entry and the date. *)
Lemma processAll_other_keys env cfg date currencies key : ∀ c w,
  snd key ≠ date ∨ fst key ∉ currencies →
  table (snd (processAll env cfg date currencies c w)) !! key
  = table w !! key.
Proof.
  induction currencies as [| cur rest IH]; intros c w Hkey; [reflexivity |].
  rewrite processAll_cons, IH.
  - destruct (processCurrency_table env cfg date cur zeroCounters w)
      as [(_ & ->) | (_ & _ & r & ->)]; [reflexivity |].
    apply lookup_insert_ne. destruct key as [k sk]. cbn [fst snd] in Hkey.
    intros [= <- <-]. destruct Hkey as [Hd | Hc]; [congruence |].
    apply Hc, list_elem_of_here.
  - destruct Hkey as [Hd | Hc]; [now left | right].
    intros Hin. apply Hc. now apply list_elem_of_further.
Qed.

(** X14.  The loop touches today's records of the configured currencies
    and nothing else: under a key with another date, or with a currency
    that is not in the list, the table holds after the loop what it held
    before. *)
Theorem loop_leaves_other_days_and_currencies_alone
    (env : Env) (cfg : Config) (date : string) (currencies : list string)
    (c : Counters) (w : World) (key : string * string) :
  snd key ≠ date ∨ fst key ∉ currencies →
  table (snd (processAll env cfg date currencies c w)) !! key
  = table w !! key.
Proof. apply processAll_other_keys. Qed.

Lemma loop_leaves_other_days_and_currencies_alone_witness :
  table (snd (processAll noFaultEnv publicConfig (formatDate aDate) ["EUR"]
                zeroCounters emptyWorld)) !! ("EUR", "2026-03-06")
  = table emptyWorld !! ("EUR", "2026-03-06").
Proof.
  apply (loop_leaves_other_days_and_currencies_alone noFaultEnv publicConfig
           (formatDate aDate) ["EUR"] zeroCounters emptyWorld
           ("EUR", "2026-03-06")).
  left. vm_compute. discriminate.
Defined.

(** X15.  The first outside call of [handler] is the write of the
    supported-currencies record, which lists the configured currencies
    as they are; at the end of the run the table holds that record when
    the write succeeded, and what it held under that key before when the
    write failed: the loop never touches it. *)
Theorem handler_writes_the_currency_snapshot_first
    (env : Env) (cfg : Config) (w : World) :
  let item :=
    CurrenciesItem {| scKey := "SupportedCurrencies"; scSortKey := "-";
                      SupportedCurrencies := supportedCurrencies cfg;
                      scUpdatedAt := fst (timeNow env w) |} in
  let w' := snd (handler env cfg w) in
  (∃ rest, calls w' = calls w ++ PutItem (tableName cfg) item :: rest)
  ∧ table w' !! singletonKey
    = if putItemFails env (ordinal w) item
      then table w !! singletonKey else Some item.
Proof.
  cbv zeta. unfold handler, handlerCounts, bind, ret.
  rewrite storeSupported_unfold. cbv zeta.
  set (item := CurrenciesItem _).
  assert (Hkey : snd singletonKey ≠ formatDate (today env)
                 ∨ fst singletonKey ∉ supportedCurrencies cfg).
  { left. cbn. intros H. symmetry in H. now apply formatDate_not_hyphen in H. }
  destruct (putItemFails env (ordinal w) item).
  - pose proof (processAll_new_calls env cfg (formatDate (today env))
                  (supportedCurrencies cfg) zeroCounters
                  {| table := table w;
                     calls := calls w ++ [PutItem (tableName cfg) item] |})
      as (rest & Hc & _).
    pose proof (processAll_other_keys env cfg (formatDate (today env))
                  (supportedCurrencies cfg) singletonKey zeroCounters
                  {| table := table w;
                     calls := calls w ++ [PutItem (tableName cfg) item] |}
                  Hkey) as Ht.
    destruct (processAll env cfg _ _ zeroCounters _) as [c w'].
    cbn [fst snd table calls] in *. split.
    + exists rest. now rewrite Hc, <- app_assoc.
    + exact Ht.
  - pose proof (processAll_new_calls env cfg (formatDate (today env))
                  (supportedCurrencies cfg) zeroCounters
                  {| table := <[singletonKey := item]> (table w);
                     calls := calls w ++ [PutItem (tableName cfg) item] |})
      as (rest & Hc & _).
    pose proof (processAll_other_keys env cfg (formatDate (today env))
                  (supportedCurrencies cfg) singletonKey zeroCounters
                  {| table := <[singletonKey := item]> (table w);
                     calls := calls w ++ [PutItem (tableName cfg) item] |}
                  Hkey) as Ht.
    destruct (processAll env cfg _ _ zeroCounters _) as [c w'].
    cbn [fst snd table calls] in *. split.
    + exists rest. now rewrite Hc, <- app_assoc.
    + rewrite Ht. apply lookup_insert_eq.
Qed.

(** ** Configuration *)

Lemma Split_nonempty s sep : Split s sep ≠ [].
Proof. apply (Split_is_split sep s). Qed.

Lemma parseSupportedCurrencies_nonempty s : parseSupportedCurrencies s ≠ [].
Proof.
  unfold parseSupportedCurrencies. case_bool_decide;
    [apply Split_nonempty | discriminate].
Qed.

(** X16.  [init] stops the process exactly when the SDK configuration
    does not load or the table name is empty or unset.  Otherwise the
    configuration has that table name, the API key as it is in the
    environment, empty or not, and at least one currency. *)
Theorem init_needs_only_the_table_name
    (getenv : string → string) (sdkConfigErr : bool) :
  match init getenv sdkConfigErr with
  | None => sdkConfigErr = true ∨ getenv "EXCHANGE_RATE_DB_NAME" = EmptyString
  | Some cfg =>
    sdkConfigErr = false
    ∧ tableName cfg = getenv "EXCHANGE_RATE_DB_NAME"
    ∧ tableName cfg ≠ EmptyString
    ∧ apiKey cfg = getenv "EXCHANGE_RATE_API_KEY"
    ∧ supportedCurrencies cfg ≠ []
  end.
Proof.
  unfold init. destruct sdkConfigErr; [now left |].
  case_bool_decide; [now right |].
  cbn [tableName apiKey supportedCurrencies].
  repeat split; try assumption. apply parseSupportedCurrencies_nonempty.
Qed.

Lemma Split_step c s sep :
  Split (String c s) sep
  = if Ascii.eqb c sep then EmptyString :: Split s sep
    else match Split s sep with
         | seg :: segs => String c seg :: segs
         | [] => [String c EmptyString]
         end.
Proof. reflexivity. Qed.

Lemma Split_length s sep : length (Split s sep) = S (countSep sep s).
Proof.
  induction s as [| c s IH]; [reflexivity |].
  cbn [Split countSep]. destruct (Ascii.eqb c sep).
  - cbn [length]. now rewrite IH.
  - destruct (Split s sep) as [| seg segs]; cbn [length] in *; lia.
Qed.

(** X17.  Every pipe character in a non-empty SUPPORTED_CURRENCIES starts
    a new entry: the list has one entry more than the value has pipes,
    and a leading, trailing or doubled pipe gives an empty entry, which
    is kept. *)
Theorem every_pipe_starts_an_entry (s : string) :
  length (parseSupportedCurrencies s)
  = (if bool_decide (s = EmptyString) then 13 else S (countSep "|" s))%nat
  ∧ ∀ a b, parseSupportedCurrencies (a +:+ String "|" b)
           = Split a "|" ++ Split b "|".
Proof.
  split.
  - unfold parseSupportedCurrencies.
    repeat case_bool_decide; try contradiction; try congruence;
      [apply Split_length | reflexivity].
  - intros a b. unfold parseSupportedCurrencies.
    case_bool_decide as Hne; [| destruct a; discriminate Hne].
    clear Hne. induction a as [| c a IH]; [reflexivity |].
    change (String c a +:+ String "|" b)
      with (String c (a +:+ String "|" b)).
    rewrite !Split_step, IH.
    destruct (Ascii.eqb c "|"); [reflexivity |].
    pose proof (Split_nonempty a "|") as Hne.
    now destruct (Split a "|").
Qed.

Lemma Join_empty_cases sep l :
  Join sep l = EmptyString → l = [] ∨ l = [EmptyString].
Proof.
  destruct l as [| x [| y rest]]; cbn [Join]; intros H; [now left | | ].
  - right. now subst.
  - destruct x; discriminate H.
Qed.

Lemma deployedGetenv_table tbl key currencies :
  deployedGetenv tbl key currencies "EXCHANGE_RATE_DB_NAME" = tbl.
Proof. reflexivity. Qed.

Lemma deployedGetenv_key tbl key currencies :
  deployedGetenv tbl key currencies "EXCHANGE_RATE_API_KEY" = key.
Proof. reflexivity. Qed.

Lemma deployedGetenv_list tbl key currencies :
  deployedGetenv tbl key currencies "SUPPORTED_CURRENCIES"
  = Join "|" currencies.
Proof. reflexivity. Qed.

(** X18.  The deployment hands the currency list to the program joined by
    pipes, and [init] gets the same list back, in the same order,
    provided no code contains a pipe; the one exception is a list that
    joins to the empty string (no code, or one empty code), for which
    [init] falls back to the default list. *)
Theorem deployed_currency_list_round_trips
    (tbl key : string) (currencies : list string) :
  Forall (λ seg, contains "|" seg = false) currencies →
  tbl ≠ EmptyString →
  init (deployedGetenv tbl key currencies) false
  = Some {| tableName := tbl; apiKey := key;
            supportedCurrencies :=
              if bool_decide (Join "|" currencies = EmptyString)
              then defaultCurrencies else currencies |}
  ∧ (Join "|" currencies = EmptyString
     ↔ currencies = [] ∨ currencies = [EmptyString]).
Proof.
  intros Hall Htbl.
  split; [| split; [apply Join_empty_cases | now intros [-> | ->]]].
  unfold init.
  rewrite deployedGetenv_table, deployedGetenv_key, deployedGetenv_list.
  rewrite (bool_decide_eq_false_2 (tbl = EmptyString)) by assumption.
  do 2 f_equal. unfold parseSupportedCurrencies.
  destruct (decide (Join "|" currencies = EmptyString)) as [Hj | Hj].
  - rewrite (bool_decide_eq_true_2 _ Hj).
    now rewrite bool_decide_eq_false_2 by (intros Hn; now apply Hn).
  - rewrite (bool_decide_eq_false_2 _ Hj).
    rewrite bool_decide_eq_true_2 by assumption.
    symmetry. apply Split_unique. split; [| now split].
    intros ->. now apply Hj.
Qed.

Lemma deployed_currency_list_round_trips_witness :
  init (deployedGetenv "rates" "k" deployedCurrencies) false
  = Some {| tableName := "rates"; apiKey := "k";
            supportedCurrencies := deployedCurrencies |}.
Proof.
  apply (deployed_currency_list_round_trips "rates" "k" deployedCurrencies).
  - repeat constructor.
  - discriminate.
Defined.

(** ** The date as a sort key *)













(** ** Entries listed more than once *)

(** While the table holds an item under the key of a currency, no
    iteration for that currency succeeds. *)
Lemma held_never_succeeds env cfg date cur currencies : ∀ w j oj,
  table w !! (cur, date) ≠ None →
  currencies !! j = Some cur →
  outcomes env cfg date currencies w !! j = Some oj →
  oj ≠ Succeeded.
Proof.
  induction currencies as [| x rest IH]; intros w j oj Hheld Hj Ho;
    [discriminate |].
  cbn [outcomes] in Ho. destruct j as [| j]; cbn in Hj, Ho.
  - injection Hj as ->. injection Ho as <-.
    destruct (processCurrency_table env cfg date cur zeroCounters w)
      as [(Hns & _) | (_ & Hnone & _)]; [assumption | congruence].
  - eapply IH; [| exact Hj | exact Ho].
    intros Hnone. apply Hheld.
    pose proof (processCurrency_keeps_items env cfg date x zeroCounters w) as Hsub.
    destruct (table w !! (cur, date)) as [item |] eqn:E; [| reflexivity].
    apply (lookup_weaken _ _ _ _ E) in Hsub. congruence.
Qed.

(** X20.  An entry listed more than once is stored at most once per run:
    once an iteration for a currency has succeeded or skipped, no later
    iteration for the same currency succeeds. *)
Theorem repeated_entry_is_stored_at_most_once
    (env : Env) (cfg : Config) (date cur : string) (currencies : list string)
    (w : World) (i j : nat) (oi oj : Outcome) :
  (i < j)%nat →
  currencies !! i = Some cur →
  currencies !! j = Some cur →
  outcomes env cfg date currencies w !! i = Some oi →
  outcomes env cfg date currencies w !! j = Some oj →
  oi ≠ Errored →
  oj ≠ Succeeded.
Proof.
  revert w i j. induction currencies as [| x rest IH];
    intros w i j Hij Hi Hj Hoi Hoj Hne; [discriminate |].
  destruct j as [| j]; [lia |].
  cbn [outcomes] in Hoi, Hoj. cbn in Hj, Hoj.
  destruct i as [| i]; cbn in Hi, Hoi.
  - injection Hi as ->. injection Hoi as <-.
    eapply held_never_succeeds; [| exact Hj | exact Hoj].
    destruct (processCurrency_leaves_item env cfg date cur zeroCounters w Hne)
      as (item & r & -> & _). discriminate.
  - eapply (IH _ i j); try eassumption. lia.
Qed.

Lemma repeated_entry_is_stored_at_most_once_witness :
  outcomes noFaultEnv publicConfig (formatDate aDate) ["EUR"; "EUR"] emptyWorld
  = [Succeeded; Skipped]
  ∧ Skipped ≠ Succeeded.
Proof.
  split; [reflexivity |].
  apply (repeated_entry_is_stored_at_most_once noFaultEnv publicConfig
           (formatDate aDate) "EUR" ["EUR"; "EUR"] emptyWorld 0 1
           Succeeded Skipped);
    [lia | reflexivity | reflexivity | reflexivity | reflexivity | discriminate].
Defined.

(** ** When nothing fails *)

Lemma allDecode_insert_rates t key r :
  allDecode t → allDecode (<[key := RatesItem r]> t).
Proof.
  intros Hall k item. rewrite lookup_insert.
  case_decide; [intros [= <-]; discriminate | apply Hall].
Qed.

Lemma faultFree_step env cfg date baseCurrency c w :
  faultFree env →
  validCurrencyCode baseCurrency = true →
  allDecode (table w) →
  stepOutcome env cfg date baseCurrency w ≠ Errored
  ∧ allDecode (table (snd (processCurrency env cfg date baseCurrency c w))).
Proof.
  intros (Hget & Hput & Hhttp) Hvalid Hall. split.
  - unfold stepOutcome. rewrite checkExisting_unfold, Hget. unfold logged.
    destruct (table w !! (baseCurrency, date)) as [item |] eqn:Hitem.
    + specialize (Hall _ _ Hitem).
      destruct (UnmarshalRates item); [discriminate | congruence].
    + rewrite fetch_valid_unfold by assumption.
      destruct (Hhttp (ordinal {| table := table w;
                                  calls := calls w
                                    ++ [GetItem (tableName cfg)
                                          (baseCurrency, date)] |})
                      (rateUrl cfg baseCurrency)) as (r & -> & Hr).
      change (negb (200 =? 200)) with false. cbv iota.
      replace (bool_decide (Result r ≠ EmptyString)
               && bool_decide (Result r ≠ "success")) with false.
      2:{ symmetry. apply andb_false_iff.
          destruct Hr as [Hr | Hr]; [left | right];
            now apply bool_decide_eq_false_2; intros Hn; apply Hn. }
      rewrite store_unfold. cbv zeta. rewrite Hput. discriminate.
  - destruct (processCurrency_table env cfg date baseCurrency c w)
      as [(_ & ->) | (_ & _ & r & ->)];
      [assumption | now apply allDecode_insert_rates].
Qed.

Lemma faultFree_loop env cfg date currencies :
  faultFree env →
  Forall (λ cur, validCurrencyCode cur = true) currencies →
  ∀ c w, allDecode (table w) →
    Forall (λ o, o ≠ Errored) (outcomes env cfg date currencies w)
    ∧ ∀ cur, cur ∈ currencies →
        table (snd (processAll env cfg date currencies c w)) !! (cur, date)
        ≠ None.
Proof.
  intros Hff Hvalid.
  induction Hvalid as [| x rest Hx Hrest IH]; intros c w Hall.
  - split; [constructor | intros cur Hin; now apply elem_of_nil in Hin].
  - destruct (faultFree_step env cfg date x zeroCounters w Hff Hx Hall)
      as (Ho & Hall').
    destruct (IH c _ Hall') as (IHo & IHt).
    cbn [outcomes]. split; [now constructor |].
    intros cur Hin. rewrite processAll_cons.
    apply elem_of_cons in Hin as [-> | Hin]; [| now apply IHt].
    destruct (processCurrency_leaves_item env cfg date x zeroCounters w Ho)
      as (item & r & Hitem & _).
    pose proof (loop_keeps_items_helper env cfg date rest c
                  (snd (processCurrency env cfg date x zeroCounters w))) as Hsub.
    apply (lookup_weaken _ _ _ _ Hitem) in Hsub. congruence.
Qed.

(** X21.  When no store call fails, the provider answers every request
    with a usable response, every configured entry is three uppercase
    letters and every item of the table decodes, the run has no error:
    [handler] returns nil, the error counter is zero, and at the end the
    table holds an item for every configured currency and the date of
    the run. *)
Theorem nothing_fails_then_every_currency_is_recorded
    (env : Env) (cfg : Config) (w : World) :
  faultFree env →
  Forall (λ cur, validCurrencyCode cur = true) (supportedCurrencies cfg) →
  allDecode (table w) →
  fst (handler env cfg w) = None
  ∧ errorCount (fst (handlerCounts env cfg w)) = 0
  ∧ ∀ cur, cur ∈ supportedCurrencies cfg →
      table (snd (handler env cfg w)) !! (cur, formatDate (today env)) ≠ None.
Proof.
  intros Hff Hvalid Hall.
  unfold handler, handlerCounts, bind, ret.
  rewrite storeSupported_unfold. cbv zeta.
  destruct Hff as (Hget & Hput & Hhttp) eqn:Eff. rewrite Hput. clear Eff.
  set (w1 := {| table := <[singletonKey := _]> (table w); calls := _ |}).
  assert (Hall1 : allDecode (table w1)).
  { intros k item. unfold w1. cbn [table]. rewrite lookup_insert.
    case_decide; [intros [= <-]; discriminate | apply Hall]. }
  destruct (faultFree_loop env cfg (formatDate (today env))
              (supportedCurrencies cfg) (conj Hget (conj Hput Hhttp)) Hvalid
              zeroCounters w1 Hall1) as (Ho & Ht).
  pose proof (processAll_spec env cfg (formatDate (today env))
                (supportedCurrencies cfg) zeroCounters w1) as H.
  destruct (processAll env cfg _ _ zeroCounters w1) as [c w'].
  destruct H as (_ & _ & He & _). cbn [fst snd] in *.
  apply countOf_zero in Ho. rewrite Ho in He. cbn in He.
  split; [| split; [exact He | exact Ht]].
  unfold classify. rewrite He. reflexivity.
Qed.

Lemma nothing_fails_then_every_currency_is_recorded_witness :
  fst (handler noFaultEnv publicConfig emptyWorld) = None
  ∧ errorCount (fst (handlerCounts noFaultEnv publicConfig emptyWorld)) = 0
  ∧ ∀ cur, cur ∈ supportedCurrencies publicConfig →
      table (snd (handler noFaultEnv publicConfig emptyWorld))
        !! (cur, formatDate (today noFaultEnv)) ≠ None.
Proof.
  apply (nothing_fails_then_every_currency_is_recorded noFaultEnv
           publicConfig emptyWorld).
  - repeat split. intros k url. exists eurResponse. split; [reflexivity |].
    now right.
  - repeat constructor.
  - intros key item H. discriminate H.
Defined.
